(** * video2mp4: the WebSocket job server and the conversion runner

    A shallow embedding of [video2mp4/core.py] and
    [video2mp4/websocket_server.py].  Python exceptions are values of an
    exception-and-state monad, dictionaries are finite maps, the file
    system and the table of open files are explicit state, and Python
    floats are IEEE binary64 numbers ([spec_float] at precision 53). *)

From Stdlib Require Import ZArith List Ascii String Bool Lia.
From Stdlib Require Import Floats.SpecFloat.
From stdpp Require Import base option gmap strings list pretty.

Local Open Scope string_scope.
Local Open Scope Z_scope.

(** ** Python values the code handles *)

Module Py.

(** The exception classes the code can meet.  [BaseExit] stands for the
    classes that derive from [BaseException] but not from [Exception]
    ([KeyboardInterrupt], [SystemExit], [asyncio.CancelledError]). *)
Inductive exn_class :=
| ValueError | OverflowError | ZeroDivisionError | TypeError
| AttributeError | OSError | OtherException | BaseExit.

Record exn := Exn { exn_cls : exn_class; exn_msg : string }.

(** [isinstance(e, Exception)] *)
Definition is_Exception (e : exn) : bool :=
  match exn_cls e with BaseExit => false | _ => true end.

(** [isinstance(e, ValueError)] *)
Definition is_ValueError (e : exn) : bool :=
  match exn_cls e with ValueError => true | _ => false end.

(** What a call does: it returns a value or raises. *)
Inductive outcome (A : Type) :=
| Ret (a : A)
| Raise (e : exn).
Arguments Ret {A} a.
Arguments Raise {A} e.

(** *** str methods *)

(** [str.isspace] on an ASCII character. *)
Definition is_space (c : ascii) : bool :=
  let n := nat_of_ascii c in
  ((9 <=? n)%nat && (n <=? 13)%nat) || ((28 <=? n)%nat && (n <=? 32)%nat).

Fixpoint lstrip (s : string) : string :=
  match s with
  | String c s' => if is_space c then lstrip s' else s
  | EmptyString => EmptyString
  end.

Fixpoint rstrip (s : string) : string :=
  match s with
  | EmptyString => EmptyString
  | String c s' =>
      match rstrip s' with
      | EmptyString => if is_space c then EmptyString else String c EmptyString
      | r => String c r
      end
  end.

(** [s.strip()] *)
Definition strip (s : string) : string := rstrip (lstrip s).

(** [s.startswith(p)] *)
Definition startswith (p s : string) : bool := String.prefix p s.

Fixpoint endswith_char (c : ascii) (s : string) : bool :=
  match s with
  | EmptyString => false
  | String d EmptyString => Ascii.eqb c d
  | String _ s' => endswith_char c s'
  end.

(** [s.split(sep)] for a one-character separator: never empty. *)
Fixpoint split (sep : ascii) (s : string) : list string :=
  match s with
  | EmptyString => [EmptyString]
  | String c s' =>
      if Ascii.eqb c sep then EmptyString :: split sep s'
      else match split sep s' with
           | w :: ws => String c w :: ws
           | [] => [String c EmptyString]
           end
  end.

(** *** int(str) *)

Definition digit_of (c : ascii) : option Z :=
  let n := nat_of_ascii c in
  if ((48 <=? n)%nat && (n <=? 57)%nat) then Some (Z.of_nat n - 48) else None.

(** Digits with single underscores between them; [prev] tells whether the
    previous character was a digit, [acc] is the value read so far. *)
Fixpoint parse_digits (prev : bool) (acc : Z) (s : string) : option Z :=
  match s with
  | EmptyString => if prev then Some acc else None
  | String c s' =>
      match digit_of c with
      | Some d => parse_digits true (10 * acc + d) s'
      | None =>
          if Ascii.eqb c "_" && prev
          then match s' with
               | String c' _ =>
                   match digit_of c' with
                   | Some _ => parse_digits false acc s'
                   | None => None
                   end
               | EmptyString => None
               end
          else None
      end
  end.

(** [int(s)] in base 10: surrounding white space, an optional sign, then
    digits.  A string that is no integer raises [ValueError]. *)
Definition int_of_str (s : string) : outcome Z :=
  let bad := Raise (Exn ValueError
               ("invalid literal for int() with base 10: '" +:+ s +:+ "'")) in
  let body sign t :=
    match parse_digits false 0 t with
    | Some n => Ret (sign * n)
    | None => bad
    end in
  match strip s with
  | String "-" t => body (-1) t
  | String "+" t => body 1 t
  | t => body 1 t
  end.

(** *** float: IEEE binary64 *)

Definition prec : Z := 53.
Definition emax : Z := 1024.

Definition float := spec_float.

(** [float(n)] for an integer that converts without overflow. *)
Definition float_of_Z (n : Z) : float := binary_normalize prec emax n 0 false.

(** [a / b] on two ints: the correctly rounded quotient;
    [ZeroDivisionError] when [b] is 0 and [OverflowError] when the
    quotient is beyond the float range. *)
Definition int_truediv (a b : Z) : outcome float :=
  if b =? 0 then Raise (Exn ZeroDivisionError "division by zero")
  else if a =? 0 then Ret (S754_zero (b <? 0))
  else
    let s := xorb (a <? 0) (b <? 0) in
    let '(mz, ez, lz) := SFdiv_core_binary prec emax (Z.abs a) 0 (Z.abs b) 0 in
    match binary_round_aux prec emax s mz ez lz with
    | S754_infinity _ =>
        Raise (Exn OverflowError "integer division result too large for a float")
    | q => Ret q
    end.

(** [x / y] on two floats: [ZeroDivisionError] on a zero divisor. *)
Definition float_truediv (x y : float) : outcome float :=
  match y with
  | S754_zero _ => Raise (Exn ZeroDivisionError "float division by zero")
  | _ => Ret (SFdiv prec emax x y)
  end.

(** [x * n] for a float and an int literal. *)
Definition float_mul_int (x : float) (n : Z) : float :=
  SFmul prec emax x (float_of_Z n).

(** [x > 0] *)
Definition float_gt0 (x : float) : bool := SFltb (S754_zero false) x.

(** The integer part of a finite float, rounded toward zero. *)
Definition trunc_finite (s : bool) (m : positive) (e : Z) : Z :=
  let a := match e with
           | Zneg p => Z.pos m / 2 ^ Z.pos p
           | _ => Z.pos m * 2 ^ e
           end in
  if s then - a else a.

(** [int(x)]: truncation toward zero. *)
Definition int_of_float (x : float) : outcome Z :=
  match x with
  | S754_zero _ => Ret 0
  | S754_finite s m e => Ret (trunc_finite s m e)
  | S754_infinity _ =>
      Raise (Exn OverflowError "cannot convert float infinity to integer")
  | S754_nan => Raise (Exn ValueError "cannot convert float NaN to integer")
  end.

(** [math.floor(x)] on a finite float, the reading of the
    specification's floor. *)
Definition floor_finite (s : bool) (m : positive) (e : Z) : Z :=
  match e with
  | Zneg p => (if s then - Z.pos m else Z.pos m) / 2 ^ Z.pos p
  | _ => (if s then - Z.pos m else Z.pos m) * 2 ^ e
  end.

(** [math.floor(x)] *)
Definition floor_of_float (x : float) : outcome Z :=
  match x with
  | S754_zero _ => Ret 0
  | S754_finite s m e => Ret (floor_finite s m e)
  | S754_infinity _ =>
      Raise (Exn OverflowError "cannot convert float infinity to integer")
  | S754_nan => Raise (Exn ValueError "cannot convert float NaN to integer")
  end.

(** The float is not a number, or its sign bit is [s]. *)
Definition has_sign (s : bool) (x : float) : Prop :=
  match x with
  | S754_zero s' | S754_infinity s' | S754_finite s' _ _ => s' = s
  | S754_nan => True
  end.

End Py.

(** ** Effects: state passing with Python exceptions *)

Module Eff.
Import Py.

(** A computation over a state [S]: it ends with a value or an exception,
    and the state it has reached is kept in both cases. *)
Definition M (S A : Type) : Type := S -> outcome A * S.

Definition ret {S A} (a : A) : M S A := fun s => (Ret a, s).

Definition raise {S A} (e : exn) : M S A := fun s => (Raise e, s).

Definition bind {S A B} (m : M S A) (k : A -> M S B) : M S B :=
  fun s => match m s with
           | (Ret a, s') => k a s'
           | (Raise e, s') => (Raise e, s')
           end.

(** A call of a function that only computes. *)
Definition lift {S A} (o : outcome A) : M S A := fun s => (o, s).

Definition get {S} : M S S := fun s => (Ret s, s).

Definition modify {S} (f : S -> S) : M S unit := fun s => (Ret tt, f s).

(** [try: m  except C as e: h e], where [catches] tells whether an
    exception is an instance of [C]. *)
Definition try_except {S A} (m : M S A) (catches : exn -> bool)
    (h : exn -> M S A) : M S A :=
  fun s => match m s with
           | (Raise e, s') => if catches e then h e s' else (Raise e, s')
           | r => r
           end.

(** [try: m  finally: f] *)
Definition try_finally {S A} (m : M S A) (f : M S unit) : M S A :=
  fun s => match m s with
           | (r, s') =>
               match f s' with
               | (Ret _, s'') => (r, s'')
               | (Raise e, s'') => (Raise e, s'')
               end
           end.

(** Binding in the outcome of a pure computation. *)
Definition obind {A B} (o : outcome A) (k : A -> outcome B) : outcome B :=
  match o with
  | Ret a => k a
  | Raise e => Raise e
  end.

(** A computation keeps an invariant of the state, however it ends. *)
Definition keeps {S A} (I : S -> Prop) (m : M S A) : Prop :=
  forall s, I s -> I (snd (m s)).

End Eff.

Notation "'let*' x := m 'in' k" := (Eff.bind m (fun x => k))
  (at level 10, x pattern, m at level 100, k at level 200).
Notation "m >>> k" := (Eff.bind m (fun _ => k))
  (at level 100, k at level 200, right associativity).

(** ** posixpath *)

Module Path.
Import Py.

(** [os.path.join(a, b)] *)
Definition join (a b : string) : string :=
  if startswith "/" b then b
  else if (String.eqb a "" || endswith_char "/" a)%bool then a +:+ b
  else a +:+ "/" +:+ b.

(** The text up to and including the last slash. *)
Fixpoint head_to_last_slash (p : string) : string :=
  match p with
  | EmptyString => EmptyString
  | String c p' =>
      match head_to_last_slash p' with
      | EmptyString => if Ascii.eqb c "/" then String c EmptyString else EmptyString
      | h => String c h
      end
  end.

Fixpoint all_slashes (p : string) : bool :=
  match p with
  | EmptyString => true
  | String c p' => Ascii.eqb c "/" && all_slashes p'
  end.

Fixpoint rstrip_slashes (p : string) : string :=
  match p with
  | EmptyString => EmptyString
  | String c p' =>
      match rstrip_slashes p' with
      | EmptyString => if Ascii.eqb c "/" then EmptyString else String c EmptyString
      | r => String c r
      end
  end.

(** [os.path.dirname(p)] *)
Definition dirname (p : string) : string :=
  let head := head_to_last_slash p in
  if all_slashes head then head else rstrip_slashes head.

(** Where a path leads: whether it starts at the root, and the names
    from there (or from the working directory).  Empty names and [.]
    are skipped, [..] leaves the directory entered last; at the root
    [..] stays, above the working directory it is kept.  (No symbolic
    links; this is what [os.path.normpath] computes.) *)
Definition location : Type := bool * list string.

Definition step_into (stack : list string) (comp : string) : bool -> list string :=
  fun absolute =>
    if (String.eqb comp "" || String.eqb comp ".")%bool then stack
    else if String.eqb comp ".." then
      match stack with
      | [] => if absolute then [] else [".."]
      | top :: below => if String.eqb top ".." then comp :: stack else below
      end
    else comp :: stack.

(** The names are kept innermost first while walking. *)
Definition walk (absolute : bool) (comps : list string) : list string :=
  fold_left (fun stack comp => step_into stack comp absolute) comps [].

Definition resolve (p : string) : location :=
  let absolute := startswith "/" p in
  (absolute, rev (walk absolute (split "/" p))).


End Path.

(** ** core.py: the conversion runner *)

Module Core.
Import Py Eff.

(** The dictionaries handed to the progress callback. *)
Inductive event :=
| EvError (message : string)
| EvProgress (progress : Z) (time duration : float)
| EvCompleted (output : string).

(** What [subprocess.Popen] gives back once started: the lines read from
    its standard output, the exception that ends the reading early (if
    any), the text of its standard error and its exit status. *)
Record process := {
  proc_stdout : list string;
  proc_stdout_error : option exn;
  proc_stderr : string;
  proc_returncode : Z;
}.

(** The world outside the interpreter, as [convert_video] queries it. *)
Record conv_env := {
  ffmpeg_version : outcome string;      (* stdout of [ffmpeg -version] *)
  ffmpeg_version_caught : exn -> bool;  (* SubprocessError, FileNotFoundError *)
  ffprobe_duration : string -> outcome float;
  path_exists : string -> bool;
  path_isfile : string -> bool;
  makedirs : string -> outcome unit;
  getcwd : string;
  popen : list string -> outcome process;
}.

(** [needle in hay] *)
Fixpoint contains (needle hay : string) : bool :=
  startswith needle hay ||
  match hay with
  | EmptyString => false
  | String _ hay' => contains needle hay'
  end.

(** [check_ffmpeg()]: the version query succeeds and names ffmpeg. *)
Definition check_ffmpeg {St} (E : conv_env) : M St bool :=
  try_except
    (let* out := lift (ffmpeg_version E) in
     ret (contains "ffmpeg version" out))
    (ffmpeg_version_caught E)
    (fun _ => ret false).

(** [get_video_duration(input_file)]: 0.0 when the probe fails. *)
Definition get_video_duration {St} (E : conv_env) (input_file : string)
    : M St float :=
  try_except (lift (ffprobe_duration E input_file)) is_Exception
    (fun _ => ret (S754_zero false)).

Section Runner.
Context {S : Type}.
Variable E : conv_env.

(** The state a run threads: the callback's own state and the lines
    printed on standard output. *)
Record cstate := { cb_state : S; printed : list string }.

(** A progress callback: it changes its state and returns or raises. *)
Definition callback : Type := event -> S -> outcome unit * S.

Definition run_callback (cb : callback) (update : event) : M cstate unit :=
  fun st =>
    let '(r, s') := cb update (cb_state st) in
    (r, {| cb_state := s'; printed := printed st |}).

Definition print (line : string) : M cstate unit :=
  modify (fun st => {| cb_state := cb_state st;
                       printed := (printed st ++ [line])%list |}).

(** The wrapper [call_callback]: a coroutine function is run to its
    end with [asyncio.run], a plain function is called; both are one
    [run_callback] here. *)
Definition call_callback (original_callback : option callback)
    (update : event) : M cstate unit :=
  match original_callback with
  | Some cb =>
      try_except (run_callback cb update) is_Exception
        (fun e => print ("Error calling progress callback: " +:+ exn_msg e))
  | None => ret tt
  end.

(** [kwargs.get(key, default)] *)
Definition kwarg (kwargs : gmap string string) (key dflt : string) : string :=
  default dflt (kwargs !! key).

(** The ffmpeg command line. *)
Definition build_cmd (input_file output_file : string)
    (kwargs : gmap string string) : list string :=
  let codec := kwarg kwargs "codec" "libx264" in
  let preset := kwarg kwargs "preset" "medium" in
  let crf := kwarg kwargs "crf" "23" in
  let audio_codec := kwarg kwargs "audio_codec" "aac" in
  let audio_bitrate := kwarg kwargs "audio_bitrate" "128k" in
  let resolution := kwargs !! "resolution" in
  (["ffmpeg"; "-i"; input_file; "-c:v"; codec; "-preset"; preset;
    "-crf"; crf; "-c:a"; audio_codec; "-b:a"; audio_bitrate;
    "-y"; "-progress"; "pipe:1"; "-hide_banner"; "-loglevel"; "error"]
   ++ match resolution with
      | Some r => if String.eqb r "" then [] else ["-vf"; "scale=" +:+ r]
      | None => []
      end
   ++ [output_file])%list.

(** The percentage of one [out_time_ms] line:
    [min(100, int((time_sec / duration) * 100))] when the duration is
    positive, 0 otherwise; with the elapsed seconds. *)
Definition progress_of (time_ms : Z) (duration : float) : outcome (Z * float) :=
  obind (int_truediv time_ms 1000000) (fun time_sec =>
  if float_gt0 duration then
    obind (float_truediv time_sec duration) (fun ratio =>
    obind (int_of_float (float_mul_int ratio 100)) (fun pct =>
    Ret (Z.min 100 pct, time_sec)))
  else Ret (0, time_sec)).

(** The body of the loop over the lines of the progress stream. *)
Definition handle_line (progress_callback : event -> M cstate unit)
    (duration : float) (line : string) : M cstate unit :=
  let line := strip line in
  if startswith "out_time_ms=" line then
    try_except
      (let* time_ms := lift (int_of_str (nth 1 (split "=" line) "")) in
       let* pt := lift (progress_of time_ms duration) in
       progress_callback (EvProgress (fst pt) (snd pt) duration))
      is_ValueError
      (fun _ => ret tt)
  else ret tt.

Fixpoint read_progress (progress_callback : event -> M cstate unit)
    (duration : float) (lines : list string) : M cstate unit :=
  match lines with
  | [] => ret tt
  | line :: rest =>
      handle_line progress_callback duration line >>>
      read_progress progress_callback duration rest
  end.

Definition convert_video (input_file output_file : string)
    (progress_callback : option callback) (kwargs : gmap string string)
    : M cstate bool :=
  let progress_callback := call_callback progress_callback in
  if String.eqb input_file "" then
    progress_callback (EvError "Input file path is required") >>> ret false
  else if String.eqb output_file "" then
    progress_callback (EvError "Output file path is required") >>> ret false
  else
  let* available := check_ffmpeg E in
  if negb available then
    progress_callback (EvError
      "FFmpeg not found. Please install FFmpeg and add it to system PATH")
    >>> ret false
  else if negb (path_exists E input_file) then
    progress_callback (EvError ("Input file not found: " +:+ input_file))
    >>> ret false
  else if negb (path_isfile E input_file) then
    progress_callback (EvError ("Input path is not a file: " +:+ input_file))
    >>> ret false
  else
  let output_dir := Path.dirname output_file in
  let* prepared :=
    if negb (String.eqb output_dir "") && negb (path_exists E output_dir) then
      try_except (lift (makedirs E output_dir) >>> ret true) is_Exception
        (fun e =>
           progress_callback (EvError
             ("Failed to create output directory: " +:+ exn_msg e))
           >>> ret false)
    else ret true in
  if negb prepared then ret false
  else
  let output_file :=
    if String.eqb output_dir "" then Path.join (getcwd E) output_file
    else output_file in
  let cmd := build_cmd input_file output_file kwargs in
  let* duration := get_video_duration E input_file in
  try_except
    (let* process := lift (popen E cmd) in
     read_progress progress_callback duration (proc_stdout process) >>>
     match proc_stdout_error process with
     | Some e => raise e
     | None => ret tt
     end >>>
     if proc_returncode process =? 0 then
       progress_callback (EvCompleted output_file) >>> ret true
     else
       progress_callback (EvError (proc_stderr process)) >>> ret false)
    is_Exception
    (fun e => progress_callback (EvError (exn_msg e)) >>> ret false).

End Runner.

Arguments cstate S : clear implicits.
Arguments callback S : clear implicits.

(** The callback that records what it is given and never raises. *)
Definition recorder : callback (list event) :=
  fun update log => (Ret tt, (log ++ [update])%list).

(** The events one run of [convert_video] hands to its callback. *)
Definition conversion_events (E : conv_env) (input_file output_file : string)
    (kwargs : gmap string string) : list event :=
  cb_state (snd (convert_video E input_file output_file (Some recorder) kwargs
                   {| cb_state := []; printed := [] |})).

(** The percentage as the specification words it:
    [min(100, floor(elapsed / duration * 100))] when the duration is
    positive, with the elapsed seconds got from the time marker in
    microseconds; zero otherwise. *)
Definition spec_percent (time_marker : Z) (duration : float) : outcome Z :=
  if float_gt0 duration then
    obind (int_truediv time_marker 1000000) (fun elapsed =>
    obind (float_truediv elapsed duration) (fun ratio =>
    obind (floor_of_float (float_mul_int ratio 100)) (fun pct =>
    Ret (Z.min 100 pct))))
  else Ret 0.

(** A progress event whose percentage was computed from some time
    marker and the duration it carries. *)
Definition computed_progress (update : event) : Prop :=
  match update with
  | EvProgress pct time_sec duration =>
      exists time_ms, progress_of time_ms duration = Ret (pct, time_sec)
  | _ => True
  end.

(** The log of the recorder holds computed percentages only. *)
Definition log_computed (st : cstate (list event)) : Prop :=
  Forall computed_progress (cb_state st).

(** The callback's state after it was handed the events one by one,
    whatever it raised on the way. *)
Definition deliver {S} (cb : callback S) (s : S) (events : list event) : S :=
  fold_left (fun s update => snd (cb update s)) events s.

(** A computation run with [cb] and the same computation run with the
    recorder end alike, and [cb] was handed what the recorder saw. *)
Definition simulates {S} (cb : callback S) {A}
    (m1 : M (cstate S) A) (m2 : M (cstate (list event)) A) : Prop :=
  forall st1 st2, exists events,
    fst (m1 st1) = fst (m2 st2) /\
    cb_state (snd (m2 st2)) = (cb_state st2 ++ events)%list /\
    cb_state (snd (m1 st1)) = deliver cb (cb_state st1) events.

End Core.

(** ** JSON values, as [json.loads] builds them *)

Module Json.
Import Py.

#[local] Unset Elimination Schemes.
Inductive json :=
| JNull
| JBool (b : bool)
| JInt (n : Z)
| JStr (s : string)
| JArr (items : list json)
| JObj (members : list (string * json)).
#[local] Set Elimination Schemes.

(** [bool(v)] *)
Definition truthy (v : json) : bool :=
  match v with
  | JNull => false
  | JBool b => b
  | JInt n => negb (n =? 0)
  | JStr s => negb (String.eqb s "")
  | JArr items => match items with [] => false | _ => true end
  | JObj members => match members with [] => false | _ => true end
  end.

(** [d.get(key)] on the dictionary of an object: of two members with one
    name the later one counts. *)
Fixpoint get (key : string) (members : list (string * json)) : option json :=
  match members with
  | [] => None
  | (k, v) :: rest =>
      match get key rest with
      | Some v' => Some v'
      | None => if String.eqb k key then Some v else None
      end
  end.

(** [d.get(key)] with [None] for a missing key. *)
Definition get_or_null (key : string) (members : list (string * json)) : json :=
  default JNull (get key members).

Definition type_name (v : json) : string :=
  match v with
  | JNull => "NoneType"
  | JBool _ => "bool"
  | JInt _ => "int"
  | JStr _ => "str"
  | JArr _ => "list"
  | JObj _ => "dict"
  end.

(** [str(v)] as an f-string prints it; the text of a list or of a
    dictionary is abbreviated. *)
Definition str (v : json) : string :=
  match v with
  | JNull => "None"
  | JBool true => "True"
  | JBool false => "False"
  | JInt n => pretty n
  | JStr s => s
  | JArr _ => "[...]"
  | JObj _ => "{...}"
  end.

(** [key in d] for a dictionary [d] whose keys are strings, with the
    entry found: lists and dictionaries cannot be hashed, and no other
    value equals a string. *)
Definition member {V} (key : json) (d : gmap string V) : outcome (option (string * V)) :=
  match key with
  | JStr s => Ret (match d !! s with Some v => Some (s, v) | None => None end)
  | JArr _ | JObj _ =>
      Raise (Exn TypeError ("unhashable type: '" +:+ type_name key +:+ "'"))
  | _ => Ret None
  end.

End Json.

(** ** The file system and the open files *)

Module Fs.
Import Py Eff.

Inductive node :=
| Dir
| File (content : list Byte.byte).

(** A file object opened for writing: where its file is and the
    position of its next write.  Buffering is left out: a file holds
    here what it holds on disk once its writers have flushed. *)
Record open_file := { of_loc : Path.location; of_pos : nat }.

Record files := {
  nodes : gmap Path.location node;
  handles : gmap nat open_file;
}.

(** The working directory, the root and the directories above the
    working directory always exist. *)
Definition anchor (loc : Path.location) : bool :=
  forallb (String.eqb "..") (snd loc).

Definition is_dir (fs : files) (loc : Path.location) : bool :=
  anchor loc ||
  match nodes fs !! loc with Some Dir => true | _ => false end.

(** [os.path.exists(p)] *)
Definition exists_ (fs : files) (p : string) : bool :=
  let loc := Path.resolve p in
  anchor loc || match nodes fs !! loc with Some _ => true | None => false end.

(** [os.path.getsize(p)]; a directory has the size of one block. *)
Definition getsize (fs : files) (p : string) : outcome Z :=
  let loc := Path.resolve p in
  match nodes fs !! loc with
  | Some (File content) => Ret (Z.of_nat (length content))
  | Some Dir => Ret 4096
  | None =>
      if anchor loc then Ret 4096
      else Raise (Exn OSError ("[Errno 2] No such file or directory: '" +:+ p +:+ "'"))
  end.

(** One more name on the way of [os.makedirs]: the directory is entered,
    or made when it is missing; a file in the way is an error. *)
Definition enter (absolute : bool) (acc : outcome (list string * gmap Path.location node))
    (comp : string) : outcome (list string * gmap Path.location node) :=
  obind acc (fun '(stack, ns) =>
    let stack' := Path.step_into stack comp absolute in
    let loc := (absolute, rev stack') in
    if anchor loc then Ret (stack', ns)
    else match ns !! loc with
         | Some Dir => Ret (stack', ns)
         | Some (File _) =>
             Raise (Exn OSError "[Errno 20] Not a directory")
         | None => Ret (stack', <[loc := Dir]> ns)
         end).

(** [os.makedirs(p, exist_ok=True)] *)
Definition makedirs (p : string) : M files unit :=
  fun fs =>
    if String.eqb p "" then
      (Raise (Exn OSError "[Errno 2] No such file or directory: ''"), fs)
    else
      let absolute := startswith "/" p in
      match fold_left (enter absolute) (split "/" p) (Ret ([], nodes fs)) with
      | Ret (_, ns) => (Ret tt, {| nodes := ns; handles := handles fs |})
      | Raise e => (Raise e, fs)
      end.

Definition parent (loc : Path.location) : Path.location :=
  (fst loc, removelast (snd loc)).

(** The smallest number no open file has. *)
Definition fresh_handle (hs : gmap nat open_file) : nat :=
  fresh (dom hs).

(** [open(p, 'wb')]: the file is created or emptied, the position of the
    new file object is 0. *)
Definition open_wb (p : string) : M files nat :=
  fun fs =>
    let loc := Path.resolve p in
    if is_dir fs loc then
      (Raise (Exn OSError ("[Errno 21] Is a directory: '" +:+ p +:+ "'")), fs)
    else if negb (is_dir fs (parent loc)) then
      (Raise (Exn OSError ("[Errno 2] No such file or directory: '" +:+ p +:+ "'")), fs)
    else
      let h := fresh_handle (handles fs) in
      (Ret h, {| nodes := <[loc := File []]> (nodes fs);
                 handles := <[h := {| of_loc := loc; of_pos := 0 |}]> (handles fs) |}).

(** The content after [data] is written at [pos]: a gap is filled with
    zero bytes, what lies under the data is replaced. *)
Definition write_at (pos : nat) (data content : list Byte.byte) : list Byte.byte :=
  (take pos content ++ replicate (pos - length content) Byte.x00
   ++ data ++ drop (pos + length data) content)%list.

(** [f.write(data)] *)
Definition write (h : nat) (data : list Byte.byte) : M files unit :=
  fun fs =>
    match handles fs !! h with
    | None => (Raise (Exn ValueError "I/O operation on closed file."), fs)
    | Some f =>
        let old := match nodes fs !! of_loc f with
                   | Some (File content) => content
                   | _ => []
                   end in
        (Ret tt,
         {| nodes := <[of_loc f := File (write_at (of_pos f) data old)]> (nodes fs);
            handles := <[h := {| of_loc := of_loc f;
                                 of_pos := (of_pos f + length data)%nat |}]>
                         (handles fs) |})
    end.

(** [f.close()]; closing twice is allowed. *)
Definition close (h : nat) : M files unit :=
  modify (fun fs => {| nodes := nodes fs; handles := delete h (handles fs) |}).

End Fs.

(** ** websocket_server.py: the server *)

Module Server.
Import Py Eff Json.

(** A connection is known by [id(websocket)]. *)
Definition conn : Type := N.

(** The messages the server sends. *)
Inductive response :=
| Error (message : string)
| FfmpegCheck (available : bool) (message : string)
| TaskStarted (task_id : string)
| TaskCancelled (task_id : string)
| Progress (task_id : string) (update : Core.event)
| UploadInit (upload_id : string)
| UploadProgress (upload_id : string) (progress uploaded : Z) (total : json)
| UploadComplete (upload_id file_path file_name : string).

(** One entry of [self.uploads]. *)
Record upload_state := {
  file_name : string;
  file_path : string;
  file_size : json;
  uploaded_size : Z;
  file_handle : option nat;
}.

(** The executor thread that runs [convert_video] for a task: not yet
    started, running with the events it still has to hand to the
    callback, or ended. *)
Inductive thread_state :=
| NotStarted
| Emitting (pending : list Core.event)
| Exited.

(** An [asyncio.Task] made by [handle_convert_request], with its
    thread. *)
Record job := {
  job_conn : conn;
  job_task_id : string;
  job_input : json;
  job_output : json;
  job_options : json;
  job_cancelled : bool;
  job_thread : thread_state;
}.

(** The server object ([self.tasks], [self.uploads]) and what it acts
    on: the files, the tasks of the event loop, and the messages sent so
    far, each with the connection it went to. *)
Record world := {
  tasks : gmap string nat;
  uploads : gmap string upload_state;
  files : Fs.files;
  jobs : list job;
  outbox : list (conn * response);
}.

Definition upload_dir : string := "uploads".

Definition set_tasks (f : gmap string nat -> gmap string nat) (w : world) : world :=
  {| tasks := f (tasks w); uploads := uploads w; files := files w;
     jobs := jobs w; outbox := outbox w |}.

Definition set_uploads (f : gmap string upload_state -> gmap string upload_state)
    (w : world) : world :=
  {| tasks := tasks w; uploads := f (uploads w); files := files w;
     jobs := jobs w; outbox := outbox w |}.

Definition set_jobs (f : list job -> list job) (w : world) : world :=
  {| tasks := tasks w; uploads := uploads w; files := files w;
     jobs := f (jobs w); outbox := outbox w |}.

(** A file operation, run on the files of the world. *)
Definition on_files {A} (m : M Fs.files A) : M world A :=
  fun w =>
    let '(r, fs) := m (files w) in
    (r, {| tasks := tasks w; uploads := uploads w; files := fs;
           jobs := jobs w; outbox := outbox w |}).

(** [await websocket.send(json.dumps(r))] *)
Definition send (websocket : conn) (r : response) : M world unit :=
  modify (fun w =>
    {| tasks := tasks w; uploads := uploads w; files := files w;
       jobs := jobs w; outbox := (outbox w ++ [(websocket, r)])%list |}).

(** [f"{id(websocket)}_{count}"] *)
Definition make_id (websocket : conn) (count : nat) : string :=
  pretty websocket +:+ "_" +:+ pretty count.

Definition with_handle (h : option nat) (u : upload_state) : upload_state :=
  {| file_name := file_name u; file_path := file_path u;
     file_size := file_size u; uploaded_size := uploaded_size u;
     file_handle := h |}.

Definition add_uploaded (n : Z) (u : upload_state) : upload_state :=
  {| file_name := file_name u; file_path := file_path u;
     file_size := file_size u; uploaded_size := uploaded_size u + n;
     file_handle := file_handle u |}.

(** [task.cancel()]: a task whose thread has not started never runs; a
    running thread is not interrupted. *)
Definition cancel_job (j : job) : job :=
  {| job_conn := job_conn j; job_task_id := job_task_id j;
     job_input := job_input j; job_output := job_output j;
     job_options := job_options j; job_cancelled := true;
     job_thread := job_thread j |}.

Definition with_thread (t : thread_state) (j : job) : job :=
  {| job_conn := job_conn j; job_task_id := job_task_id j;
     job_input := job_input j; job_output := job_output j;
     job_options := job_options j; job_cancelled := job_cancelled j;
     job_thread := t |}.

Section Handlers.
(** [base64.b64decode] on a string. *)
Variable b64decode : string -> outcome (list Byte.byte).
Variable E : Core.conv_env.

Definition handle_check_ffmpeg (websocket : conn) : M world unit :=
  let* is_available := Core.check_ffmpeg E in
  send websocket (FfmpegCheck is_available
    (if is_available then "FFmpeg is available"
     else "FFmpeg is not installed or not in PATH")).

Definition handle_convert_request (websocket : conn)
    (data : list (string * json)) : M world unit :=
  let input_file := get_or_null "input_file" data in
  let output_file := get_or_null "output_file" data in
  let options := default (JObj []) (get "options" data) in
  if negb (truthy input_file) || negb (truthy output_file) then
    send websocket (Error "Missing input_file or output_file")
  else
    let* w := Eff.get in
    let task_id := make_id websocket (size (tasks w)) in
    let task := length (jobs w) in
    modify (set_jobs (fun js =>
      (js ++ [{| job_conn := websocket; job_task_id := task_id;
                 job_input := input_file; job_output := output_file;
                 job_options := options; job_cancelled := false;
                 job_thread := NotStarted |}])%list)) >>>
    modify (set_tasks <[task_id := task]>) >>>
    send websocket (TaskStarted task_id).

Definition handle_cancel_request (websocket : conn)
    (data : list (string * json)) : M world unit :=
  let task_id := get_or_null "task_id" data in
  let* w := Eff.get in
  let* found := lift (member task_id (tasks w)) in
  match found with
  | Some (key, task) =>
      modify (set_tasks (delete key)) >>>
      modify (set_jobs (alter cancel_job task)) >>>
      send websocket (TaskCancelled key)
  | None =>
      send websocket (Error ("Task " +:+ str task_id +:+ " not found"))
  end.

(** [os.path.join(self.upload_dir, file_name)]: only a string can be
    joined; the name comes back with the path. *)
Definition join_upload_dir (file_name : json) : outcome (string * string) :=
  match file_name with
  | JStr name => Ret (name, Path.join upload_dir name)
  | _ => Raise (Exn TypeError
           ("expected str, bytes or os.PathLike object, not "
            +:+ type_name file_name))
  end.

Definition handle_upload (websocket : conn)
    (data : list (string * json)) : M world unit :=
  let file_name := get_or_null "file_name" data in
  let file_size := default (JInt 0) (get "file_size" data) in
  if negb (truthy file_name) then
    send websocket (Error "Missing file_name")
  else
    let* w := Eff.get in
    let upload_id := make_id websocket (size (uploads w)) in
    let* joined := lift (join_upload_dir file_name) in
    let file_path := snd joined in
    modify (set_uploads
      <[upload_id := {| file_name := fst joined; file_path := file_path;
                        file_size := file_size; uploaded_size := 0;
                        file_handle := None |}]>) >>>
    try_except
      (on_files (Fs.makedirs (Path.dirname file_path)) >>>
       let* file_handle := on_files (Fs.open_wb file_path) in
       modify (set_uploads (alter (with_handle (Some file_handle)) upload_id)) >>>
       send websocket (UploadInit upload_id))
      is_Exception
      (fun e => send websocket
         (Error ("Failed to initialize upload: " +:+ exn_msg e))).

(** [base64.b64decode(chunk)] *)
Definition decode_chunk (chunk : json) : outcome (list Byte.byte) :=
  match chunk with
  | JStr text => b64decode text
  | _ => Raise (Exn TypeError
           ("argument should be a bytes-like object or ASCII string, not '"
            +:+ type_name chunk +:+ "'"))
  end.

(** [uploaded_size / file_size] *)
Definition divide_by_size (uploaded_size : Z) (file_size : json) : outcome float :=
  match file_size with
  | JInt n => int_truediv uploaded_size n
  | JBool b => int_truediv uploaded_size (if b then 1 else 0)
  | _ => Raise (Exn TypeError
           ("unsupported operand type(s) for /: 'int' and '"
            +:+ type_name file_size +:+ "'"))
  end.

(** [min(100, int((uploaded_size / file_size) * 100))] *)
Definition upload_percent (uploaded_size : Z) (file_size : json) : outcome Z :=
  obind (divide_by_size uploaded_size file_size) (fun ratio =>
  obind (int_of_float (float_mul_int ratio 100)) (fun pct =>
  Ret (Z.min 100 pct))).

Definition handle_upload_chunk (websocket : conn)
    (data : list (string * json)) : M world unit :=
  let upload_id := get_or_null "upload_id" data in
  let chunk := get_or_null "chunk" data in
  if negb (truthy upload_id) || negb (truthy chunk) then
    send websocket (Error "Missing upload_id or chunk")
  else
    let* w := Eff.get in
    let* found := lift (member upload_id (uploads w)) in
    match found with
    | None =>
        send websocket (Error ("Upload " +:+ str upload_id +:+ " not found"))
    | Some (key, upload_state) =>
        match file_handle upload_state with
        | None => send websocket (Error "Upload not properly initialized")
        | Some handle =>
            try_except
              (let* chunk_data := lift (decode_chunk chunk) in
               on_files (Fs.write handle chunk_data) >>>
               let uploaded :=
                 uploaded_size upload_state + Z.of_nat (length chunk_data) in
               modify (set_uploads
                 (alter (add_uploaded (Z.of_nat (length chunk_data))) key)) >>>
               (* [upload_state.get("file_size", 1)]: the key is always there *)
               let file_size := file_size upload_state in
               let* progress := lift (upload_percent uploaded file_size) in
               send websocket (UploadProgress key progress uploaded file_size))
              is_Exception
              (fun e => send websocket
                 (Error ("Failed to process upload chunk: " +:+ exn_msg e)))
        end
    end.

Definition handle_upload_complete (websocket : conn)
    (data : list (string * json)) : M world unit :=
  let upload_id := get_or_null "upload_id" data in
  if negb (truthy upload_id) then
    send websocket (Error "Missing upload_id")
  else
    let* w := Eff.get in
    let* found := lift (member upload_id (uploads w)) in
    match found with
    | None =>
        send websocket (Error ("Upload " +:+ str upload_id +:+ " not found"))
    | Some (key, upload_state) =>
        try_finally
          (try_except
             (match file_handle upload_state with
              | Some handle =>
                  on_files (Fs.close handle) >>>
                  modify (set_uploads (alter (with_handle None) key))
              | None => ret tt
              end >>>
              let file_path := file_path upload_state in
              let file_name := file_name upload_state in
              let* w' := Eff.get in
              let* nonempty :=
                if Fs.exists_ (files w') file_path then
                  let* size := lift (Fs.getsize (files w') file_path) in
                  ret (0 <? size)
                else ret false in
              if nonempty then
                send websocket (UploadComplete key file_path file_name)
              else
                send websocket (Error "Uploaded file is empty or does not exist"))
             is_Exception
             (fun e => send websocket
                (Error ("Failed to complete upload: " +:+ exn_msg e))))
          (let* w' := Eff.get in
           match uploads w' !! key with
           | Some u =>
               match file_handle u with
               | Some handle => on_files (Fs.close handle)
               | None => ret tt
               end >>>
               modify (set_uploads (delete key))
           | None => ret tt
           end)
    end.

Definition is_action (name : string) (action : json) : bool :=
  match action with
  | JStr s => String.eqb s name
  | _ => false
  end.

(** [data.get]: only a dictionary has it. *)
Definition members_of (data : json) : outcome (list (string * json)) :=
  match data with
  | JObj members => Ret members
  | _ => Raise (Exn AttributeError
           ("'" +:+ type_name data +:+ "' object has no attribute 'get'"))
  end.

(** [process_message]; [message] is [None] when the text is no JSON. *)
Definition process_message (websocket : conn) (message : option json)
    : M world unit :=
  match message with
  | None => send websocket (Error "Invalid JSON format")
  | Some parsed =>
      try_except
        (let* data := lift (members_of parsed) in
         let action := get_or_null "action" data in
         if is_action "convert" action then handle_convert_request websocket data
         else if is_action "check_ffmpeg" action then handle_check_ffmpeg websocket
         else if is_action "cancel" action then handle_cancel_request websocket data
         else if is_action "upload" action then handle_upload websocket data
         else if is_action "upload_chunk" action then handle_upload_chunk websocket data
         else if is_action "upload_complete" action then
           handle_upload_complete websocket data
         else send websocket (Error ("Unknown action: " +:+ str action)))
        is_Exception
        (fun e => send websocket (Error (exn_msg e)))
  end.

(** *** The executor threads *)

(** One keyword argument of [convert_video], when it is a string;
    [crf] goes through [str]. *)
Definition kwarg_of (key : string) (v : json) : option string :=
  match v with
  | JStr text => Some text
  | JInt _ | JBool _ | JNull => if String.eqb key "crf" then Some (str v) else None
  | _ => None
  end.

Definition known_keys : list string :=
  ["codec"; "preset"; "crf"; "audio_codec"; "audio_bitrate"; "resolution"].

(** Names that [convert_video] has as parameters: as keys of the
    options they make the call fail. *)
Definition parameter_names : list string :=
  ["input_file"; "output_file"; "progress_callback"].

(** The [**options] of [run_conversion] as keyword arguments, for
    options that are strings; a [resolution] that is [None] counts as
    none. *)
Definition kwargs_of (options : json) : option (gmap string string) :=
  match options with
  | JObj members =>
      if existsb (fun name => bool_decide (is_Some (get name members)))
           parameter_names
      then None
      else
        foldr (fun key acc =>
                 kw ← acc;
                 match get key members with
                 | None => Some kw
                 | Some JNull =>
                     if String.eqb key "resolution" then Some kw
                     else text ← kwarg_of key JNull; Some (<[key := text]> kw)
                 | Some v => text ← kwarg_of key v; Some (<[key := text]> kw)
                 end)
              (Some ∅) known_keys
  | _ => None
  end.

(** The events the thread of a task will hand over, one by one.  For
    paths and options that are not strings the run is left out of the
    model: the thread then ends without an event. *)
Definition thread_events (j : job) : list Core.event :=
  match job_input j, job_output j, kwargs_of (job_options j) with
  | JStr input_file, JStr output_file, Some kwargs =>
      Core.conversion_events E input_file output_file kwargs
  | _, _, _ => []
  end.

(** The executor starts the thread of a task, unless the task was
    cancelled before. *)
Definition start_thread (task : nat) (w : world) : option world :=
  j ← jobs w !! task;
  match job_thread j with
  | NotStarted =>
      if job_cancelled j then None
      else Some (set_jobs <[task := with_thread (Emitting (thread_events j)) j]> w)
  | _ => None
  end.

(** The thread hands its next event to [progress_callback], which
    sends it with the task id; after the last one the thread ends.
    Nothing here looks at [job_cancelled] or at [self.tasks]:
    [convert_video] and the callback have no such test. *)
Definition emit (task : nat) (w : world) : option world :=
  j ← jobs w !! task;
  match job_thread j with
  | Emitting (update :: rest) =>
      Some (snd (send (job_conn j) (Progress (job_task_id j) update)
                   (set_jobs <[task := with_thread (Emitting rest) j]> w)))
  | Emitting [] => Some (set_jobs <[task := with_thread Exited j]> w)
  | _ => None
  end.

(** What can happen next: a message arrives on a connection, a thread
    starts, a thread hands over an event. *)
Inductive label :=
| Receive (websocket : conn) (message : option json)
| Start (task : nat)
| Emit (task : nat).

Definition step (l : label) (w : world) : option world :=
  match l with
  | Receive websocket message => Some (snd (process_message websocket message w))
  | Start task => start_thread task w
  | Emit task => emit task w
  end.

Fixpoint run (ls : list label) (w : world) : option world :=
  match ls with
  | [] => Some w
  | l :: rest => w' ← step l w; run rest w'
  end.

End Handlers.

(** *** Messages of an upload, as a client sends them *)


(** A chunk message: its offset, its base64 text, and the bytes the text
    stands for. *)
Record chunk := { chunk_offset : json; chunk_text : string;
                  chunk_bytes : list Byte.byte }.









(** The world with one more message sent. *)
Definition sent (websocket : conn) (r : response) (w : world) : world :=
  snd (send websocket r w).

(** The session as [handle_upload] registers it, before the file is
    opened. *)
Definition new_session (name : string) (declared : json) : upload_state :=
  {| file_name := name; file_path := Path.join upload_dir name;
     file_size := declared; uploaded_size := 0; file_handle := None |}.


(** The server after [__init__], on the files [fs]: the upload directory
    is there. *)
Definition init (fs : Fs.files) : world :=
  {| tasks := ∅; uploads := ∅;
     files := if Fs.exists_ fs upload_dir then fs
              else snd (Fs.makedirs upload_dir fs);
     jobs := []; outbox := [] |}.

End Server.

(** ** A base64 decoder for the examples

    [base64.b64decode] on well-formed text: characters of the standard
    alphabet in groups of four, the last group padded with [=].  Text
    of another shape raises here ([binascii.Error] is a [ValueError]). *)

Module Base64.
Import Py.

Definition sextet (c : ascii) : option N :=
  let n := N_of_ascii c in
  if ((65 <=? n) && (n <=? 90))%N then Some (n - 65)%N
  else if ((97 <=? n) && (n <=? 122))%N then Some (n - 71)%N
  else if ((48 <=? n) && (n <=? 57))%N then Some (n + 4)%N
  else if (n =? 43)%N then Some 62%N
  else if (n =? 47)%N then Some 63%N
  else None.

Definition byte_of (n : N) : Byte.byte :=
  default Byte.x00 (Byte.of_N (n mod 256)).

Fixpoint decode_groups (s : string) : option (list Byte.byte) :=
  match s with
  | EmptyString => Some []
  | String a (String b (String c (String d rest))) =>
      x ← sextet a; y ← sextet b;
      let b1 := byte_of (x * 4 + y / 16) in
      if Ascii.eqb c "=" then
        if Ascii.eqb d "=" && String.eqb rest "" then Some [b1] else None
      else
        z ← sextet c;
        let b2 := byte_of (y * 16 + z / 4) in
        if Ascii.eqb d "=" then
          if String.eqb rest "" then Some [b1; b2] else None
        else
          t ← sextet d;
          more ← decode_groups rest;
          Some (b1 :: b2 :: byte_of (z * 64 + t) :: more)
  | _ => None
  end.

Definition b64decode (s : string) : outcome (list Byte.byte) :=
  match decode_groups s with
  | Some data => Ret data
  | None => Raise (Exn ValueError "Incorrect padding")
  end.

End Base64.

(** ** Concrete worlds for the examples *)

Module Examples.
Import Py Eff Json.

(** A host where ffmpeg is installed, every input exists, the probed
    duration is ten seconds, and the conversion prints [lines] and
    exits with [status]. *)
Definition host (lines : list string) (status : Z) : Core.conv_env := {|
  Core.ffmpeg_version := Ret "ffmpeg version 6.0";
  Core.ffmpeg_version_caught := fun _ => true;
  Core.ffprobe_duration := fun _ => Ret (float_of_Z 10);
  Core.path_exists := fun _ => true;
  Core.path_isfile := fun _ => true;
  Core.makedirs := fun _ => Ret tt;
  Core.getcwd := "/srv";
  Core.popen := fun _ =>
    Ret {| Core.proc_stdout := lines; Core.proc_stdout_error := None;
           Core.proc_stderr := "conversion failed";
           Core.proc_returncode := status |};
|}.

(** A callback that counts its calls and raises on each. *)
Definition failing_callback : Core.callback nat :=
  fun _ calls => (Raise (Exn TypeError "not serializable"), Datatypes.S calls).

(** A callback that counts its calls and returns. *)
Definition quiet_callback : Core.callback nat :=
  fun _ calls => (Ret tt, Datatypes.S calls).

Definition fresh_run {S} (s : S) : Core.cstate S :=
  {| Core.cb_state := s; Core.printed := [] |}.

(** An empty working directory. *)
Definition empty_disk : Fs.files := {| Fs.nodes := ∅; Fs.handles := ∅ |}.


Definition message (members : list (string * json)) : option json :=
  Some (JObj members).

Definition convert_msg (input_file output_file : string) : option json :=
  message [("action", JStr "convert"); ("input_file", JStr input_file);
           ("output_file", JStr output_file)].

Definition cancel_msg (task_id : string) : option json :=
  message [("action", JStr "cancel"); ("task_id", JStr task_id)].

Definition upload_msg (file_name : string) (file_size : json) : option json :=
  message [("action", JStr "upload"); ("file_name", JStr file_name);
           ("file_size", file_size)].

Definition chunk_msg (upload_id chunk : string) : option json :=
  message [("action", JStr "upload_chunk"); ("upload_id", JStr upload_id);
           ("offset", JInt 0); ("chunk", JStr chunk)].

Definition complete_msg (upload_id : string) : option json :=
  message [("action", JStr "upload_complete"); ("upload_id", JStr upload_id)].


(** The server on [fs] and host [E] after the steps [labels]. *)
Definition server_after (E : Core.conv_env) (fs : Fs.files)
    (labels : list Server.label) : Server.world :=
  default (Server.init fs) (Server.run Base64.b64decode E labels (Server.init fs)).

End Examples.

(** ** Shapes of the events of a run *)

Module Events.
Import Py Eff Core.

Definition is_progress (update : event) : bool :=
  match update with EvProgress _ _ _ => true | _ => false end.

Definition is_completed (update : event) : bool :=
  match update with EvCompleted _ => true | _ => false end.

(** The path [convert_video] hands to ffmpeg and names in its
    [completed] event: a bare file name is put under the working
    directory. *)
Definition final_output (E : conv_env) (output_file : string) : string :=
  if String.eqb (Path.dirname output_file) "" then Path.join (getcwd E) output_file
  else output_file.

(** What [get_video_duration] returns when it returns. *)
Definition probed_duration (E : conv_env) (input_file : string) : float :=
  match ffprobe_duration E input_file with
  | Ret duration => duration
  | Raise _ => S754_zero false
  end.


(** The run with the recorder, from an empty log. *)
Definition recorded (E : conv_env) (input_file output_file : string)
    (kwargs : gmap string string) : outcome bool :=
  fst (convert_video E input_file output_file (Some recorder) kwargs
         {| cb_state := []; printed := [] |}).

(** Every progress event of the log carries the duration [d]. *)
Definition log_duration (d : float) (st : cstate (list event)) : Prop :=
  Forall (fun update => match update with
                        | EvProgress _ _ duration => duration = d
                        | _ => True
                        end) (cb_state st).

(** Every [completed] event of the log names the path [p]. *)
Definition log_output (p : string) (st : cstate (list event)) : Prop :=
  Forall (fun update => match update with
                        | EvCompleted output => output = p
                        | _ => True
                        end) (cb_state st).

(** [check_ffmpeg()] says yes. *)
Definition ffmpeg_found (E : conv_env) : bool :=
  match ffmpeg_version E with
  | Ret out => contains "ffmpeg version" out
  | Raise _ => false
  end.


End Events.

(** ** More concrete worlds *)

Module Scenes.
Import Py Eff Json.

(** A host like [Examples.host] on which the duration cannot be
    probed. *)
Definition blind_host (lines : list string) (status : Z) : Core.conv_env := {|
  Core.ffmpeg_version := Ret "ffmpeg version 6.0";
  Core.ffmpeg_version_caught := fun _ => true;
  Core.ffprobe_duration := fun _ => Raise (Exn OSError "ffprobe: not found");
  Core.path_exists := fun _ => true;
  Core.path_isfile := fun _ => true;
  Core.makedirs := fun _ => Ret tt;
  Core.getcwd := "/srv";
  Core.popen := fun _ =>
    Ret {| Core.proc_stdout := lines; Core.proc_stdout_error := None;
           Core.proc_stderr := "conversion failed";
           Core.proc_returncode := status |};
|}.

End Scenes.

(** ** What a message handler leaves behind *)

Module Reply.
Import Py Eff Json Server.

(** The handler returned after sending exactly one message to
    [websocket], or raised an instance of [Exception] before sending
    anything. *)
Definition replies_once (websocket : conn) (w : world)
    (result : outcome unit * world) : Prop :=
  match result with
  | (Ret _, w') => exists r, outbox w' = (outbox w ++ [(websocket, r)])%list
  | (Raise e, w') => is_Exception e = true /\ outbox w' = outbox w
  end.




End Reply.

(** ** Identifiers handed out *)

Module Ids.
Import Py Eff Json Server.

(** [c in s] for a character. *)
Fixpoint has_char (c : ascii) (s : string) : bool :=
  match s with
  | EmptyString => false
  | String d s' => Ascii.eqb c d || has_char c s'
  end.

(** The task ids announced with [task_started], oldest first. *)
Fixpoint started_ids (sent : list (conn * response)) : list string :=
  match sent with
  | [] => []
  | (_, TaskStarted task_id) :: rest => task_id :: started_ids rest
  | _ :: rest => started_ids rest
  end.

(** The step is the arrival of a [cancel] message. *)
Definition is_cancel (l : label) : bool :=
  match l with
  | Receive _ (Some (JObj data)) => is_action "cancel" (get_or_null "action" data)
  | _ => false
  end.

(** Every key of the map was made by [make_id] from a count below the
    size of the map. *)
Definition keys_below {V} (m : gmap string V) : Prop :=
  forall key, is_Some (m !! key) ->
    exists c n, key = make_id c n /\ (n < size m)%nat.

(** The task map and the announced ids agree, and no id was announced
    twice. *)
Definition ids_fresh (w : world) : Prop :=
  keys_below (tasks w)
  /\ NoDup (started_ids (outbox w))
  /\ (forall key, In key (started_ids (outbox w)) -> is_Some (tasks w !! key)).

(** A computation leaves the task map and the announced ids as they are
    in [w0]. *)
Definition same_tasks (w0 w : world) : Prop :=
  tasks w = tasks w0 /\ started_ids (outbox w) = started_ids (outbox w0).

(** The upload ids announced with [upload_init], oldest first. *)
Fixpoint init_ids (sent : list (conn * response)) : list string :=
  match sent with
  | [] => []
  | (_, UploadInit upload_id) :: rest => upload_id :: init_ids rest
  | _ :: rest => init_ids rest
  end.

(** The step is the arrival of an [upload_complete] message. *)
Definition is_complete (l : label) : bool :=
  match l with
  | Receive _ (Some (JObj data)) =>
      is_action "upload_complete" (get_or_null "action" data)
  | _ => false
  end.

(** The keys of the session map were made by [make_id] from counts
    below its size, no upload id was announced twice, and every
    announced id is a key of the map. *)
Definition sessions_fresh (w : world) : Prop :=
  keys_below (uploads w)
  /\ NoDup (init_ids (outbox w))
  /\ (forall key, In key (init_ids (outbox w)) -> is_Some (uploads w !! key)).

(** A computation leaves the keys of the session map and the announced
    upload ids as they are in [w0]. *)
Definition same_sessions (w0 w : world) : Prop :=
  dom (uploads w) = dom (uploads w0)
  /\ init_ids (outbox w) = init_ids (outbox w0).

(** Three conversions submitted on two connections. *)
Definition three_submissions : list label :=
  [Receive 7%N (Examples.convert_msg "a.mov" "a.mp4");
   Receive 8%N (Examples.convert_msg "b.mov" "b.mp4");
   Start 0%nat;
   Receive 7%N (Examples.convert_msg "c.mov" "c.mp4")].

(** Two uploads on one connection, the second for a name that cannot be
    opened, and a chunk for the first. *)
Definition two_uploads : list label :=
  [Receive 7%N (Examples.upload_msg "a.bin" (JInt 10));
   Receive 7%N (Examples.upload_msg "a.bin/" (JInt 10));
   Receive 7%N (Examples.chunk_msg "7_0" "aGVsbG8=");
   Receive 8%N (Examples.upload_msg "b.bin" (JInt 0))].

End Ids.

(** ** Upload sessions and their file objects *)

Module Sessions.
Import Py Eff Json Server.

(** Every session that holds a file object holds an open one, on the
    path of the session and at the position its byte count gives; no
    two sessions hold the same file object. *)
Definition tracks (sessions : gmap string upload_state)
    (open_files : gmap nat Fs.open_file) : Prop :=
  (forall key u h,
     sessions !! key = Some u -> file_handle u = Some h ->
     exists f, open_files !! h = Some f
       /\ Fs.of_loc f = Path.resolve (file_path u)
       /\ Z.of_nat (Fs.of_pos f) = uploaded_size u)
  /\ (forall key1 key2 u1 u2 h,
        sessions !! key1 = Some u1 -> sessions !! key2 = Some u2 ->
        file_handle u1 = Some h -> file_handle u2 = Some h -> key1 = key2).

Definition tracked (w : world) : Prop :=
  tracks (uploads w) (Fs.handles (files w)).

(** A computation leaves the sessions and the files as they are in
    [w0]. *)
Definition untouched (w0 w : world) : Prop :=
  uploads w = uploads w0 /\ files w = files w0.

(** [os.path.exists(p) and os.path.getsize(p) > 0] *)
Definition has_content (fs : Fs.files) (p : string) : bool :=
  Fs.exists_ fs p &&
  match Fs.getsize fs p with
  | Ret size => 0 <? size
  | Raise _ => false
  end.

(** The files after the file object of a session is closed. *)
Definition closed (handle : option nat) (fs : Fs.files) : Fs.files :=
  match handle with
  | Some h => {| Fs.nodes := Fs.nodes fs; Fs.handles := delete h (Fs.handles fs) |}
  | None => fs
  end.

(** Two uploads, chunks for both, and the end of the first. *)
Definition two_sessions : list label :=
  [Receive 7%N (Examples.upload_msg "a.bin" (JInt 10));
   Receive 8%N (Examples.upload_msg "b.bin" (JInt 0));
   Receive 7%N (Examples.chunk_msg "7_0" "aGVsbG8=");
   Receive 8%N (Examples.chunk_msg "8_1" "aGVsbG8=");
   Receive 7%N (Examples.complete_msg "7_0");
   Receive 8%N (Examples.chunk_msg "8_1" "aGVsbG8=")].



End Sessions.

(** ** The progress messages of a task *)

Module Feed.
Import Py Eff Json Server.







End Feed.

(** ** cli.py: the command line *)

Module Cli.
Import Py Eff.

(** [s.rfind(c)]: the index of the last [c] in [s], or -1. *)
Fixpoint rfind_from (c : ascii) (s : string) (i : Z) : Z :=
  match s with
  | EmptyString => -1
  | String a rest =>
      let later := rfind_from c rest (i + 1) in
      if 0 <=? later then later
      else if Ascii.eqb a c then i else -1
  end.

Definition rfind (c : ascii) (s : string) : Z := rfind_from c s 0.

(** The loop of [genericpath._splitext] over the characters between the
    last separator and the last dot: it stops at the first one that is
    no dot. *)
Fixpoint skip_dots (between : string) : bool :=
  match between with
  | EmptyString => false
  | String c rest => if Ascii.eqb c "." then skip_dots rest else true
  end.

(** [os.path.splitext(p)] *)
Definition splitext (p : string) : string * string :=
  let sepIndex := rfind "/" p in
  let dotIndex := rfind "." p in
  if sepIndex <? dotIndex then
    let filenameIndex := Z.to_nat (sepIndex + 1) in
    if skip_dots (String.substring filenameIndex
                    (Z.to_nat dotIndex - filenameIndex) p)
    then (String.substring 0 (Z.to_nat dotIndex) p,
          String.substring (Z.to_nat dotIndex)
            (String.length p - Z.to_nat dotIndex) p)
    else (p, "")
  else (p, "").

(** The namespace [parse_args] returns. *)
Record args := {
  input_file : option string;
  output_file : option string;
  codec : string;
  preset : string;
  crf : Z;
  audio_codec : string;
  audio_bitrate : string;
  resolution : option string;
  check_ffmpeg : bool;
}.

Definition newline : string := String (ascii_of_nat 10) "".
Definition carriage_return : string := String (ascii_of_nat 13) "".

(** What one call of the command line's [progress_callback] writes to
    standard output. *)
Definition written (update : Core.event) : list string :=
  match update with
  | Core.EvProgress progress _ _ =>
      [carriage_return +:+ "Progress: " +:+ pretty progress +:+ "% "]
  | Core.EvCompleted output =>
      [newline +:+ "Conversion completed successfully!" +:+ newline;
       "Output file: " +:+ output +:+ newline]
  | Core.EvError message =>
      [newline +:+ "Error: " +:+ message +:+ newline]
  end.

(** [progress_callback(update)]; its state is what was written to
    standard output so far. *)
Definition progress_callback : Core.callback (list string) :=
  fun update out => (Ret tt, (out ++ written update)%list).

(** [print(line)] of [main]: it goes where the callback writes. *)
Definition echo (line : string) : M (Core.cstate (list string)) unit :=
  modify (fun st =>
    {| Core.cb_state := (Core.cb_state st ++ [line +:+ newline])%list;
       Core.printed := Core.printed st |}).

(** [not s] for an optional string of the namespace *)
Definition missing (s : option string) : bool :=
  match s with
  | None => true
  | Some text => String.eqb text ""
  end.

(** The output path [main] hands on: the one given, or the input with
    its extension replaced. *)
Definition output_of (a : args) (input : string) : string :=
  match output_file a with
  | Some output => if String.eqb output "" then fst (splitext input) +:+ ".mp4"
                   else output
  | None => fst (splitext input) +:+ ".mp4"
  end.

(** The options without the [None] values, as keyword arguments. *)
Definition options (a : args) : gmap string string :=
  let given :=
    <["codec" := codec a]> (<["preset" := preset a]>
    (<["crf" := pretty (crf a)]> (<["audio_codec" := audio_codec a]>
    (<["audio_bitrate" := audio_bitrate a]> ∅)))) in
  match resolution a with
  | Some r => <["resolution" := r]> given
  | None => given
  end.

Section Main.
Variable E : Core.conv_env.
(** [repr] of a string *)
Variable repr : string -> string.

(** [f"{options}"] *)
Definition options_text (a : args) : string :=
  "{'codec': " +:+ repr (codec a) +:+ ", 'preset': " +:+ repr (preset a)
  +:+ ", 'crf': " +:+ pretty (crf a)
  +:+ ", 'audio_codec': " +:+ repr (audio_codec a)
  +:+ ", 'audio_bitrate': " +:+ repr (audio_bitrate a)
  +:+ match resolution a with
      | Some r => ", 'resolution': " +:+ repr r
      | None => ""
      end
  +:+ "}".

Definition main (a : args) : M (Core.cstate (list string)) Z :=
  if check_ffmpeg a then
    let* is_available := Core.check_ffmpeg E in
    if is_available then
      echo "✓ FFmpeg is installed and accessible" >>> ret 0
    else
      echo "✗ FFmpeg is not installed or not in PATH" >>>
      echo "Please install FFmpeg and add it to your system PATH" >>> ret 1
  else if missing (input_file a) then
    echo "Error: input_file is required" >>> ret 1
  else
    let input := default "" (input_file a) in
    if negb (Core.path_exists E input) then
      echo ("Error: Input file '" +:+ input +:+ "' does not exist") >>> ret 1
    else
      let output := output_of a input in
      let* available := Core.check_ffmpeg E in
      if negb available then
        echo "Error: FFmpeg is not installed or not in PATH" >>>
        echo "Please install FFmpeg and add it to your system PATH" >>> ret 1
      else
        echo ("Converting " +:+ input +:+ " to " +:+ output +:+ "...") >>>
        echo ("Options: " +:+ options_text a) >>>
        let* success :=
          Core.convert_video E input output (Some progress_callback) (options a) in
        ret (if success then 0 else 1).

End Main.

(** The conversion [main] asks for returns [True]. *)
Definition conversion_succeeds (E : Core.conv_env) (a : args) : Prop :=
  exists input,
    input_file a = Some input /\ input <> ""
    /\ Core.path_exists E input = true
    /\ Events.ffmpeg_found E = true
    /\ Events.recorded E input (output_of a input) (options a) = Ret true.

(** The namespace of [video2mp4 input] with the defaults of the
    parser. *)
Definition only_input (input : string) : args :=
  {| input_file := Some input; output_file := None; codec := "libx264";
     preset := "medium"; crf := 23; audio_codec := "aac";
     audio_bitrate := "128k"; resolution := None; check_ffmpeg := false |}.

(** A [repr] for strings without quotes and backslashes. *)
Definition quoted (s : string) : string := "'" +:+ s +:+ "'".

Definition terminal : Core.cstate (list string) :=
  {| Core.cb_state := []; Core.printed := [] |}.

End Cli.

(** * Properties *)

(** ** Signs of float results *)

Module PyFacts.
Import Py Eff.

Lemma binary_round_aux_sign s m e l :
  has_sign s (binary_round_aux prec emax s m e l).
Proof.
  unfold binary_round_aux.
  destruct (shr_fexp prec emax m e l) as [mrs e'].
  destruct (shr_fexp prec emax _ e' loc_Exact) as [mrs' e''].
  destruct (shr_m mrs'); simpl; auto.
  destruct (e'' <=? emax - prec)%Z; simpl; auto.
Qed.

Lemma int_truediv_sign a b q :
  0 <= a -> 0 < b -> int_truediv a b = Ret q -> has_sign false q.
Proof.
  intros Ha Hb. unfold int_truediv.
  destruct (Z.eqb_spec b 0); [lia|].
  assert (Hbs : (b <? 0) = false) by (apply Z.ltb_ge; lia).
  rewrite Hbs.
  destruct (Z.eqb_spec a 0).
  - intros [= <-]. reflexivity.
  - assert (Has : (a <? 0) = false) by (apply Z.ltb_ge; lia).
    rewrite Has. simpl xorb.
    destruct (SFdiv_core_binary prec emax (Z.abs a) 0 (Z.abs b) 0) as [[mz ez] lz].
    pose proof (binary_round_aux_sign false mz ez lz) as Hs.
    destruct (binary_round_aux prec emax false mz ez lz); intros [= <-]; exact Hs.
Qed.

Lemma float_gt0_positive d :
  float_gt0 d = true ->
  d = S754_infinity false \/ exists m e, d = S754_finite false m e.
Proof.
  unfold float_gt0, SFltb, SFcompare.
  destruct d as [s|s| |s m e]; try discriminate.
  - destruct s; [discriminate | auto].
  - destruct s; [discriminate | eauto].
Qed.

Lemma float_truediv_sign x d q :
  has_sign false x -> float_gt0 d = true ->
  float_truediv x d = Ret q -> has_sign false q.
Proof.
  intros Hx Hd. destruct (float_gt0_positive d Hd) as [->|(m & e & ->)].
  - simpl. intros [= <-]. destruct x; simpl in *; subst; auto.
  - simpl. intros [= <-]. destruct x as [s|s| |s mx ex]; simpl in *; subst; auto.
    destruct (SFdiv_core_binary prec emax (Z.pos mx) ex (Z.pos m) e) as [[mz ez] lz].
    apply binary_round_aux_sign.
Qed.

Lemma float_mul_int_sign x n :
  has_sign false x -> 0 < n -> has_sign false (float_mul_int x n).
Proof.
  intros Hx Hn. unfold float_mul_int, float_of_Z, binary_normalize.
  destruct n as [|p|p]; try lia.
  unfold binary_round.
  destruct (shl_align p 0 _) as [mz ez].
  pose proof (binary_round_aux_sign false (Z.pos mz) ez loc_Exact) as Hs.
  destruct (binary_round_aux prec emax false (Z.pos mz) ez loc_Exact) as [s|s| |s m e];
    destruct x as [sx|sx| |sx mx ex]; simpl in *; subst; auto.
  apply binary_round_aux_sign.
Qed.

Lemma trunc_finite_nonneg m e : 0 <= trunc_finite false m e.
Proof.
  unfold trunc_finite. destruct e as [|p|p].
  - lia.
  - apply Z.mul_nonneg_nonneg; [lia | apply Z.pow_nonneg; lia].
  - apply Z.div_pos; [lia | apply Z.pow_pos_nonneg; lia].
Qed.

Lemma int_of_float_nonneg x n :
  has_sign false x -> int_of_float x = Ret n -> 0 <= n.
Proof.
  destruct x as [s|s| |s m e]; simpl; intros Hs [= <-]; try lia.
  subst s. apply trunc_finite_nonneg.
Qed.

Lemma floor_of_nonneg x :
  has_sign false x -> floor_of_float x = int_of_float x.
Proof.
  destruct x as [s|s| |s m e]; simpl; intros Hs; try reflexivity.
  subst s. unfold floor_finite, trunc_finite. destruct e; reflexivity.
Qed.

End PyFacts.

(** ** Invariants of computations *)

Module EffFacts.
Import Py Eff.

Section Keeps.
Context {S : Type} (I : S -> Prop).

Lemma keeps_ret {A} (a : A) : keeps I (ret a).
Proof. intros s Hs. exact Hs. Qed.

Lemma keeps_raise {A} (e : exn) : keeps I (@raise S A e).
Proof. intros s Hs. exact Hs. Qed.

Lemma keeps_lift {A} (o : outcome A) : keeps I (lift o).
Proof. intros s Hs. exact Hs. Qed.

Lemma keeps_get : keeps I get.
Proof. intros s Hs. exact Hs. Qed.

Lemma keeps_modify f : (forall s, I s -> I (f s)) -> keeps I (modify f).
Proof. intros Hf s Hs. apply Hf, Hs. Qed.

Lemma keeps_bind {A B} (m : M S A) (k : A -> M S B) :
  keeps I m -> (forall a, keeps I (k a)) -> keeps I (bind m k).
Proof.
  intros Hm Hk s Hs. unfold bind. specialize (Hm s Hs).
  destruct (m s) as [[a|e] s']; simpl in *; [apply Hk, Hm | exact Hm].
Qed.

(** After a call that only computes, the rest runs with its value. *)
Lemma keeps_bind_lift {A B} (o : outcome A) (k : A -> M S B) :
  (forall a, o = Ret a -> keeps I (k a)) -> keeps I (bind (lift o) k).
Proof.
  intros Hk s Hs. unfold bind, lift. destruct o as [a|e]; simpl.
  - now apply Hk.
  - exact Hs.
Qed.

Lemma keeps_try_except {A} (m : M S A) catches h :
  keeps I m -> (forall e, keeps I (h e)) -> keeps I (try_except m catches h).
Proof.
  intros Hm Hh s Hs. unfold try_except. specialize (Hm s Hs).
  destruct (m s) as [[a|e] s']; simpl in *; [exact Hm|].
  destruct (catches e); simpl; [apply Hh, Hm | exact Hm].
Qed.

Lemma keeps_try_finally {A} (m : M S A) f :
  keeps I m -> keeps I f -> keeps I (try_finally m f).
Proof.
  intros Hm Hf s Hs. unfold try_finally. specialize (Hm s Hs).
  destruct (m s) as [r s']; simpl in *. specialize (Hf s' Hm).
  destruct (f s') as [[u|e] s'']; simpl in *; exact Hf.
Qed.

End Keeps.
End EffFacts.

(** ** The conversion runner and its callback *)

Module CoreFacts.
Import Py Eff Core EffFacts PyFacts.

#[local] Create HintDb sim discriminated.

Section Simulation.
Context {S : Type}.
Variable cb : callback S.
Hypothesis cb_raises_exceptions :
  forall update s e, fst (cb update s) = Raise e -> is_Exception e = true.

#[local] Abbreviation sim := (simulates cb).
#[local] Abbreviation deliver := (deliver cb).

Lemma sim_ret {A} (a : A) : sim (ret a) (ret a).
Proof. intros st1 st2. exists []. simpl. rewrite app_nil_r. auto. Qed.

Lemma sim_raise {A} (e : exn) : sim (@raise _ A e) (raise e).
Proof. intros st1 st2. exists []. simpl. rewrite app_nil_r. auto. Qed.

Lemma sim_lift {A} (o : outcome A) : sim (lift o) (lift o).
Proof. intros st1 st2. exists []. simpl. rewrite app_nil_r. auto. Qed.

Lemma sim_bind {A B} m1 m2 (k1 : A -> M (cstate S) B) k2 :
  sim m1 m2 -> (forall a, sim (k1 a) (k2 a)) -> sim (bind m1 k1) (bind m2 k2).
Proof.
  intros Hm Hk st1 st2. unfold bind.
  destruct (Hm st1 st2) as (ev & Hr & H2 & H1).
  destruct (m1 st1) as [r1 s1], (m2 st2) as [r2 s2]; simpl in *. subst r2.
  destruct r1 as [a|e]; simpl.
  - destruct (Hk a s1 s2) as (ev' & Hr' & H2' & H1').
    exists (ev ++ ev')%list. split; [assumption|]. split.
    + rewrite H2', H2. now rewrite app_assoc.
    + rewrite H1', H1. unfold Core.deliver. now rewrite fold_left_app.
  - exists ev. auto.
Qed.

Lemma sim_try_except {A} m1 m2 catches (h1 : exn -> M (cstate S) A) h2 :
  sim m1 m2 -> (forall e, sim (h1 e) (h2 e)) ->
  sim (try_except m1 catches h1) (try_except m2 catches h2).
Proof.
  intros Hm Hh st1 st2. unfold try_except.
  destruct (Hm st1 st2) as (ev & Hr & H2 & H1).
  destruct (m1 st1) as [r1 s1], (m2 st2) as [r2 s2]; simpl in *. subst r2.
  destruct r1 as [a|e]; simpl.
  - exists ev. auto.
  - destruct (catches e).
    + destruct (Hh e s1 s2) as (ev' & Hr' & H2' & H1').
      exists (ev ++ ev')%list. split; [assumption|]. split.
      * rewrite H2', H2. now rewrite app_assoc.
      * rewrite H1', H1. unfold Core.deliver. now rewrite fold_left_app.
    + exists ev. auto.
Qed.

(** The heart of it: the wrapper swallows what the callback raises. *)
Lemma sim_call_callback update :
  sim (call_callback (Some cb) update) (call_callback (Some recorder) update).
Proof.
  intros st1 st2. exists [update].
  unfold call_callback, try_except, run_callback, recorder. simpl.
  pose proof (cb_raises_exceptions update (cb_state st1)) as Hexc.
  destruct (cb update (cb_state st1)) as [[[]|e] s']; simpl in *; auto.
  rewrite (Hexc e eq_refl). simpl. auto.
Qed.

Lemma sim_check_ffmpeg E : sim (check_ffmpeg E) (check_ffmpeg E).
Proof.
  unfold check_ffmpeg. apply sim_try_except.
  - apply sim_bind; [apply sim_lift | intros; apply sim_ret].
  - intros; apply sim_ret.
Qed.

Lemma sim_get_video_duration E input_file :
  sim (get_video_duration E input_file) (get_video_duration E input_file).
Proof.
  unfold get_video_duration. apply sim_try_except.
  - apply sim_lift.
  - intros; apply sim_ret.
Qed.

Hint Resolve sim_ret sim_raise sim_lift sim_call_callback sim_check_ffmpeg
  sim_get_video_duration : sim.

Ltac sim_step :=
  match goal with
  | |- sim (bind _ _) (bind _ _) => apply sim_bind; [|intros]
  | |- sim (try_except _ _ _) (try_except _ _ _) => apply sim_try_except; [|intros]
  | |- sim (if ?c then _ else _) (if ?c then _ else _) => destruct c
  | |- sim (match ?o with Some _ => _ | None => _ end) _ => destruct o
  | |- sim _ _ => solve [auto with sim]
  end.

Lemma sim_handle_line duration line :
  sim (handle_line (call_callback (Some cb)) duration line)
      (handle_line (call_callback (Some recorder)) duration line).
Proof. unfold handle_line. repeat sim_step. Qed.

Lemma sim_read_progress duration lines :
  sim (read_progress (call_callback (Some cb)) duration lines)
      (read_progress (call_callback (Some recorder)) duration lines).
Proof.
  induction lines as [|line rest IH]; simpl.
  - apply sim_ret.
  - apply sim_bind; [apply sim_handle_line | intros; exact IH].
Qed.

Hint Resolve sim_read_progress : sim.

Lemma sim_convert_video E input_file output_file kwargs :
  sim (convert_video E input_file output_file (Some cb) kwargs)
      (convert_video E input_file output_file (Some recorder) kwargs).
Proof. unfold convert_video. repeat sim_step. Qed.

End Simulation.

Lemma keeps_record update :
  computed_progress update ->
  keeps log_computed (call_callback (Some recorder) update).
Proof.
  intros Hu st Hst. unfold log_computed in *. simpl.
  apply Forall_app. split; [exact Hst | constructor; [exact Hu | constructor]].
Qed.

Lemma keeps_handle_line duration line :
  keeps log_computed (handle_line (call_callback (Some recorder)) duration line).
Proof.
  unfold handle_line. destruct (startswith _ _); [|apply keeps_ret].
  apply keeps_try_except; [|intros; apply keeps_ret].
  apply keeps_bind_lift. intros time_ms _.
  apply keeps_bind_lift. intros [pct time_sec] Hpt.
  apply keeps_record. simpl. eauto.
Qed.

Lemma keeps_read_progress duration lines :
  keeps log_computed (read_progress (call_callback (Some recorder)) duration lines).
Proof.
  induction lines as [|line rest IH]; simpl.
  - apply keeps_ret.
  - apply keeps_bind; [apply keeps_handle_line | intros; exact IH].
Qed.

Ltac keeps_step :=
  match goal with
  | |- keeps _ (bind _ _) => apply keeps_bind; [|intros]
  | |- keeps _ (try_except _ _ _) => apply keeps_try_except; [|intros]
  | |- keeps _ (if ?c then _ else _) => destruct c
  | |- keeps _ (match ?o with Some _ => _ | None => _ end) => destruct o
  | |- keeps _ (ret _) => apply keeps_ret
  | |- keeps _ (raise _) => apply keeps_raise
  | |- keeps _ (lift _) => apply keeps_lift
  | |- keeps _ (read_progress _ _ _) => apply keeps_read_progress
  | |- keeps _ (call_callback _ (EvError _)) => apply keeps_record; exact I
  | |- keeps _ (call_callback _ (EvCompleted _)) => apply keeps_record; exact I
  | |- keeps _ (check_ffmpeg _) => unfold check_ffmpeg
  | |- keeps _ (get_video_duration _ _) => unfold get_video_duration
  end.

Lemma keeps_convert_video E input_file output_file kwargs :
  keeps log_computed (convert_video E input_file output_file (Some recorder) kwargs).
Proof. unfold convert_video. repeat keeps_step. Qed.

Lemma conversion_events_computed E input_file output_file kwargs :
  Forall computed_progress (conversion_events E input_file output_file kwargs).
Proof.
  apply (keeps_convert_video E input_file output_file kwargs
           {| cb_state := []; printed := [] |}).
  constructor.
Qed.

Lemma progress_of_bounds time_ms duration pct time_sec :
  progress_of time_ms duration = Ret (pct, time_sec) ->
  pct <= 100
  /\ (0 <= time_ms -> 0 <= pct /\ spec_percent time_ms duration = Ret pct)
  /\ (float_gt0 duration = false -> pct = 0).
Proof.
  unfold progress_of, spec_percent, obind.
  destruct (int_truediv time_ms 1000000) as [t|e] eqn:Ht; [|discriminate].
  destruct (float_gt0 duration) eqn:Hd.
  - destruct (float_truediv t duration) as [r|e] eqn:Hr; [|discriminate].
    destruct (int_of_float (float_mul_int r 100)) as [n|e] eqn:Hn; [|discriminate].
    intros [= <- <-]. split; [lia|]. split; [|discriminate].
    intros Hpos.
    assert (Hs : has_sign false (float_mul_int r 100)).
    { apply float_mul_int_sign; [|lia].
      eapply float_truediv_sign; [|exact Hd|exact Hr].
      eapply int_truediv_sign; [exact Hpos| |exact Ht]. lia. }
    rewrite (floor_of_nonneg _ Hs), Hn.
    split; [|reflexivity].
    pose proof (int_of_float_nonneg _ _ Hs Hn). lia.
  - intros [= <- <-]. split; [lia|]. split; [|reflexivity].
    intros _. split; [lia | reflexivity].
Qed.

(** What the recorder holds after a run that began with an empty log is
    the list of events of the run. *)
Lemma recorder_log E input_file output_file kwargs :
  Core.cb_state (snd (convert_video E input_file output_file (Some recorder) kwargs
                        {| cb_state := []; printed := [] |}))
  = conversion_events E input_file output_file kwargs.
Proof. reflexivity. Qed.

(** C10.  Whatever instance of [Exception] the progress callback raises,
    at whichever event, [convert_video] ends as it does with a callback
    that never raises (the same boolean, no exception of the callback
    gets out), and the callback was handed every event of the run, in
    order: the conversion went on after each failure. *)
Theorem callback_exceptions_are_swallowed :
  forall (S Q : Type) (E : conv_env) (input_file output_file : string)
         (kwargs : gmap string string)
         (cb : callback S) (quiet : callback Q)
         (st : cstate S) (sq : cstate Q),
    (forall update s e, fst (cb update s) = Raise e -> is_Exception e = true) ->
    (forall update q, fst (quiet update q) = Ret tt) ->
    fst (convert_video E input_file output_file (Some cb) kwargs st)
    = fst (convert_video E input_file output_file (Some quiet) kwargs sq)
    /\ cb_state (snd (convert_video E input_file output_file (Some cb) kwargs st))
       = deliver cb (cb_state st)
           (conversion_events E input_file output_file kwargs).
Proof.
  intros S Q E input_file output_file kwargs cb quiet st sq Hcb Hquiet.
  set (start := {| cb_state := @nil event; printed := [] |}).
  destruct (sim_convert_video cb Hcb E input_file output_file kwargs st start)
    as (ev & Hr & Hlog & Hst).
  assert (Hq : forall update q e,
             fst (quiet update q) = Raise e -> is_Exception e = true).
  { intros update q e H. rewrite Hquiet in H. discriminate. }
  destruct (sim_convert_video quiet Hq E input_file output_file kwargs sq start)
    as (ev' & Hr' & _ & _).
  split.
  - now rewrite Hr, Hr'.
  - rewrite Hst. f_equal. unfold conversion_events. fold start.
    rewrite Hlog. reflexivity.
Qed.

(** The theorem at work: a callback that raises [TypeError] on every
    call, on a run with two progress lines. *)
Lemma callback_exceptions_are_swallowed_witness :
  fst (convert_video (Examples.host ["out_time_ms=2000000"; "out_time_ms=9000000"] 0)
         "in.mov" "out.mp4" (Some Examples.failing_callback) ∅
         (Examples.fresh_run 0%nat))
  = fst (convert_video (Examples.host ["out_time_ms=2000000"; "out_time_ms=9000000"] 0)
         "in.mov" "out.mp4" (Some Examples.quiet_callback) ∅
         (Examples.fresh_run 0%nat))
  /\ cb_state (snd (convert_video
         (Examples.host ["out_time_ms=2000000"; "out_time_ms=9000000"] 0)
         "in.mov" "out.mp4" (Some Examples.failing_callback) ∅
         (Examples.fresh_run 0%nat)))
     = deliver Examples.failing_callback 0%nat
         (conversion_events
            (Examples.host ["out_time_ms=2000000"; "out_time_ms=9000000"] 0)
            "in.mov" "out.mp4" ∅).
Proof.
  apply (callback_exceptions_are_swallowed nat nat
           (Examples.host ["out_time_ms=2000000"; "out_time_ms=9000000"] 0)
           "in.mov" "out.mp4" ∅ Examples.failing_callback
           Examples.quiet_callback (Examples.fresh_run 0%nat)
           (Examples.fresh_run 0%nat)).
  - intros update s e H. simpl in H. inversion H. reflexivity.
  - intros update q. reflexivity.
Defined.

End CoreFacts.

(** ** The server *)

Module ServerFacts.
Import Py Eff Json Server EffFacts PyFacts.


(** *** Invariant: byte counts are never negative *)


















Lemma is_action_eq name action : is_action name action = true -> action = JStr name.
Proof.
  destruct action; simpl; try discriminate.
  intros H. apply String.eqb_eq in H. now subst.
Qed.

(** C7.  A [cancel] whose task id is not a key of the task map, and an
    [upload_chunk] or [upload_complete] whose upload id is not a key of
    the session map (absent, empty or of another type included), are
    answered with one [error] message to the sender, and nothing else
    changes: the task map, the session map, the files and the threads
    are as before. *)
Theorem unknown_ids_change_nothing :
  forall b64decode E websocket data w,
    (get_or_null "action" data = JStr "cancel"
     /\ (forall key, get_or_null "task_id" data = JStr key -> tasks w !! key = None))
    \/ ((get_or_null "action" data = JStr "upload_chunk"
         \/ get_or_null "action" data = JStr "upload_complete")
        /\ (forall key, get_or_null "upload_id" data = JStr key ->
                        uploads w !! key = None)) ->
    exists message,
      process_message b64decode E websocket (Some (JObj data)) w
      = (Ret tt,
         {| tasks := tasks w; uploads := uploads w; files := files w;
            jobs := jobs w;
            outbox := (outbox w ++ [(websocket, Error message)])%list |}).
Proof.
  intros b64decode E websocket data w H.
  unfold process_message, try_except, bind, lift, members_of.
  destruct H as [[Ha Hk]|[[Ha|Ha] Hk]]; rewrite Ha; simpl.
  - unfold handle_cancel_request, bind, Eff.get, lift, member.
    destruct (get_or_null "task_id" data) as [|b|n|s|l|o] eqn:Hid; simpl;
      try (eexists; reflexivity).
    rewrite (Hk s eq_refl). eexists; reflexivity.
  - unfold handle_upload_chunk, bind, Eff.get, lift, member.
    destruct (negb _ || negb _); [eexists; reflexivity|].
    destruct (get_or_null "upload_id" data) as [|b|n|s|l|o] eqn:Hid; simpl;
      try (eexists; reflexivity).
    rewrite (Hk s eq_refl). eexists; reflexivity.
  - unfold handle_upload_complete, bind, Eff.get, lift, member.
    destruct (negb _); [eexists; reflexivity|].
    destruct (get_or_null "upload_id" data) as [|b|n|s|l|o] eqn:Hid; simpl;
      try (eexists; reflexivity).
    rewrite (Hk s eq_refl). eexists; reflexivity.
Qed.

(** A task submitted on connection 7 is cancelled by a [cancel] that
    arrives on connection 8: the task leaves the map, is cancelled, and
    connection 8 is told so; no error is sent. *)
Lemma cancel_from_another_connection :
  let w := Examples.server_after (Examples.host [] 0) Examples.empty_disk
             [Receive 7%N (Examples.convert_msg "a.mov" "a.mp4")] in
  let w' := snd (process_message Base64.b64decode (Examples.host [] 0) 8%N
                   (Examples.cancel_msg "7_0") w) in
  tasks w !! "7_0" = Some 0%nat
  /\ job_conn <$> jobs w !! 0%nat = Some 7%N
  /\ tasks w' !! "7_0" = None
  /\ job_cancelled <$> jobs w' !! 0%nat = Some true
  /\ outbox w' = (outbox w ++ [(8%N, TaskCancelled "7_0")])%list.
Proof. vm_compute. repeat split. Qed.

(** C8, amended.  The tasks of all connections live in one map keyed by
    the task id alone: a [cancel] that names a live task id removes and
    cancels that task whichever connection sends it, and
    [task_cancelled] goes to the sender. *)
Theorem cancel_looks_up_by_task_id_alone :
  forall websocket data w key task,
    get_or_null "task_id" data = JStr key ->
    tasks w !! key = Some task ->
    handle_cancel_request websocket data w
    = (Ret tt,
       {| tasks := delete key (tasks w); uploads := uploads w; files := files w;
          jobs := alter cancel_job task (jobs w);
          outbox := (outbox w ++ [(websocket, TaskCancelled key)])%list |}).
Proof.
  intros websocket data w key task Hid Hkey.
  unfold handle_cancel_request, bind, Eff.get, lift, member.
  rewrite Hid, Hkey. reflexivity.
Qed.

(** The theorem at the cancel of connection 8 for the task of
    connection 7. *)
Lemma cancel_looks_up_by_task_id_alone_witness :
  handle_cancel_request 8%N [("action", JStr "cancel"); ("task_id", JStr "7_0")]
    (Examples.server_after (Examples.host [] 0) Examples.empty_disk
       [Receive 7%N (Examples.convert_msg "a.mov" "a.mp4")])
  = (Ret tt,
     {| tasks := delete "7_0" (tasks (Examples.server_after (Examples.host [] 0)
                 Examples.empty_disk
                 [Receive 7%N (Examples.convert_msg "a.mov" "a.mp4")]));
        uploads := uploads (Examples.server_after (Examples.host [] 0)
                 Examples.empty_disk
                 [Receive 7%N (Examples.convert_msg "a.mov" "a.mp4")]);
        files := files (Examples.server_after (Examples.host [] 0)
                 Examples.empty_disk
                 [Receive 7%N (Examples.convert_msg "a.mov" "a.mp4")]);
        jobs := alter cancel_job 0%nat (jobs (Examples.server_after (Examples.host [] 0)
                 Examples.empty_disk
                 [Receive 7%N (Examples.convert_msg "a.mov" "a.mp4")]));
        outbox := (outbox (Examples.server_after (Examples.host [] 0)
                 Examples.empty_disk
                 [Receive 7%N (Examples.convert_msg "a.mov" "a.mp4")])
                   ++ [(8%N, TaskCancelled "7_0")])%list |}).
Proof.
  apply (cancel_looks_up_by_task_id_alone 8%N
           [("action", JStr "cancel"); ("task_id", JStr "7_0")]
           (Examples.server_after (Examples.host [] 0) Examples.empty_disk
              [Receive 7%N (Examples.convert_msg "a.mov" "a.mp4")]) "7_0" 0%nat).
  - reflexivity.
  - vm_compute. reflexivity.
Defined.

(** C9, on the code: the task id is built from [len(self.tasks)], and
    a cancel shrinks the map.  Two submissions, the cancel of the first,
    a third submission: the third task gets the id of the second, which
    is still live (and is replaced in the map). *)
Theorem task_id_is_reused_after_cancel :
  outbox <$> run Base64.b64decode (Examples.host [] 0)
    [Receive 7%N (Examples.convert_msg "a.mov" "a.mp4");
     Receive 7%N (Examples.convert_msg "b.mov" "b.mp4");
     Receive 7%N (Examples.cancel_msg "7_0");
     Receive 7%N (Examples.convert_msg "c.mov" "c.mp4")]
    (init Examples.empty_disk)
  = Some [(7%N, TaskStarted "7_0"); (7%N, TaskStarted "7_1");
          (7%N, TaskCancelled "7_0"); (7%N, TaskStarted "7_1")].
Proof. vm_compute. reflexivity. Qed.

(** C2, on the code: a task is submitted, its thread starts, the cancel
    is accepted and answered with [task_cancelled]; the thread, which
    [task.cancel()] cannot stop, goes on and its [completed] event is
    sent with the id of the cancelled task. *)
Theorem completed_is_sent_after_cancel :
  outbox <$> run Base64.b64decode (Examples.host [] 0)
    [Receive 7%N (Examples.convert_msg "a.mov" "a.mp4");
     Start 0%nat;
     Receive 7%N (Examples.cancel_msg "7_0");
     Emit 0%nat]
    (init Examples.empty_disk)
  = Some [(7%N, TaskStarted "7_0"); (7%N, TaskCancelled "7_0");
          (7%N, Progress "7_0" (Core.EvCompleted "/srv/a.mp4"))].
Proof. vm_compute. reflexivity. Qed.

(** C4, on the code: an upload without [file_size] is registered with
    size 0; its first chunk is written and counted, but the division
    raises and the client gets an error instead of a progress report. *)
Theorem chunk_of_undeclared_size_is_answered_with_error :
  let w := Examples.server_after (Examples.host [] 0) Examples.empty_disk
             [Receive 7%N (Examples.message
                [("action", JStr "upload"); ("file_name", JStr "a.bin")]);
              Receive 7%N (Examples.chunk_msg "7_0" "aGVsbG8=")] in
  outbox w = [(7%N, UploadInit "7_0");
              (7%N, Error "Failed to process upload chunk: division by zero")]
  /\ Fs.nodes (files w) !! (false, ["uploads"; "a.bin"])
     = Some (Fs.File [Byte.x68; Byte.x65; Byte.x6c; Byte.x6c; Byte.x6f])
  /\ uploaded_size <$> uploads w !! "7_0" = Some 5
  /\ file_size <$> uploads w !! "7_0" = Some (JInt 0).
Proof. vm_compute. repeat split. Qed.



(** *** What [handle_upload] does *)

Lemma enter_raises absolute acc comp :
  (forall e, acc = Raise e -> is_Exception e = true) ->
  forall e, Fs.enter absolute acc comp = Raise e -> is_Exception e = true.
Proof.
  intros Hacc e. unfold Fs.enter, obind.
  destruct acc as [[stack ns]|e0]; [|intros [= <-]; now apply Hacc].
  destruct (Fs.anchor _); [discriminate|].
  destruct (ns !! _) as [[|content]|]; try discriminate.
  intros [= <-]. reflexivity.
Qed.

Lemma enter_all_raises absolute comps : forall acc,
  (forall e, acc = Raise e -> is_Exception e = true) ->
  forall e, fold_left (Fs.enter absolute) comps acc = Raise e ->
            is_Exception e = true.
Proof.
  induction comps as [|comp rest IH]; simpl; intros acc Hacc e.
  - apply Hacc.
  - apply IH. now apply enter_raises.
Qed.

Lemma makedirs_raises p fs e fs' :
  Fs.makedirs p fs = (Raise e, fs') -> is_Exception e = true /\ fs' = fs.
Proof.
  unfold Fs.makedirs. destruct (String.eqb p "").
  - intros [= <- <-]. auto.
  - destruct (fold_left _ _ _) as [[stack ns]|e0] eqn:Hfold; [discriminate|].
    intros [= <- <-]. split; [|reflexivity].
    eapply enter_all_raises; [|exact Hfold]. discriminate.
Qed.

Lemma makedirs_handles p fs :
  Fs.handles (snd (Fs.makedirs p fs)) = Fs.handles fs.
Proof.
  unfold Fs.makedirs. destruct (String.eqb p ""); [reflexivity|].
  destruct (fold_left _ _ _) as [[stack ns]|e0]; reflexivity.
Qed.

Lemma open_wb_raises p fs e fs' :
  Fs.open_wb p fs = (Raise e, fs') -> is_Exception e = true /\ fs' = fs.
Proof.
  unfold Fs.open_wb. destruct (Fs.is_dir fs _); [intros [= <- <-]; auto|].
  destruct (negb _); [intros [= <- <-]; auto | discriminate].
Qed.

Lemma open_wb_returns p fs h fs' :
  Fs.open_wb p fs = (Ret h, fs') ->
  h = Fs.fresh_handle (Fs.handles fs)
  /\ Fs.handles fs !! h = None
  /\ fs' = {| Fs.nodes := <[Path.resolve p := Fs.File []]> (Fs.nodes fs);
              Fs.handles := <[h := {| Fs.of_loc := Path.resolve p; Fs.of_pos := 0 |}]>
                              (Fs.handles fs) |}.
Proof.
  unfold Fs.open_wb. destruct (Fs.is_dir fs _); [discriminate|].
  destruct (negb _); [discriminate|]. intros [= <- <-].
  split; [reflexivity|]. split; [|reflexivity].
  unfold Fs.fresh_handle. apply not_elem_of_dom. apply is_fresh.
Qed.



Lemma handle_upload_named websocket data w name :
  get_or_null "file_name" data = JStr name -> name <> "" ->
  let id := make_id websocket (size (uploads w)) in
  let path := Path.join upload_dir name in
  let session := new_session name (default (JInt 0) (get "file_size" data)) in
  let failed e fs :=
    (Ret tt,
     {| tasks := tasks w; uploads := <[id := session]> (uploads w);
        files := fs; jobs := jobs w;
        outbox := (outbox w ++ [(websocket,
                     Error ("Failed to initialize upload: " +:+ exn_msg e))])%list |}) in
  handle_upload websocket data w =
  match Fs.makedirs (Path.dirname path) (files w) with
  | (Raise e, fs1) => failed e fs1
  | (Ret _, fs1) =>
      match Fs.open_wb path fs1 with
      | (Raise e, fs2) => failed e fs2
      | (Ret h, fs2) =>
          (Ret tt,
           {| tasks := tasks w;
              uploads := alter (with_handle (Some h)) id (<[id := session]> (uploads w));
              files := fs2; jobs := jobs w;
              outbox := (outbox w ++ [(websocket, UploadInit id)])%list |})
      end
  end.
Proof.
  intros Hname Hne. unfold handle_upload. rewrite Hname.
  assert (Hnz : String.eqb name "" = false) by now apply String.eqb_neq.
  unfold truthy. rewrite Hnz. cbn [negb].
  unfold bind, Eff.get, lift, join_upload_dir, try_except, on_files, modify, send.
  cbn [fst snd set_uploads tasks uploads files jobs outbox].
  destruct (Fs.makedirs _ (files w)) as [[[]|e] fs1] eqn:Hmk;
    cbn [fst snd set_uploads tasks uploads files jobs outbox].
  - destruct (Fs.open_wb _ fs1) as [[h|e] fs2] eqn:Hop;
      cbn [fst snd set_uploads tasks uploads files jobs outbox].
    + reflexivity.
    + destruct (open_wb_raises _ _ _ _ Hop) as [-> _]. reflexivity.
  - destruct (makedirs_raises _ _ _ _ Hmk) as [-> _]. reflexivity.
Qed.



(** *** Paths below the upload directory *)







(** *** What the upload handlers do on an open session *)

















(** The theorem on a cancel for a task id that was never given out. *)
Lemma unknown_ids_change_nothing_witness :
  exists message,
    process_message Base64.b64decode (Examples.host [] 0) 7%N
      (Examples.cancel_msg "9_9") (init Examples.empty_disk)
    = (Ret tt,
       {| tasks := tasks (init Examples.empty_disk);
          uploads := uploads (init Examples.empty_disk);
          files := files (init Examples.empty_disk);
          jobs := jobs (init Examples.empty_disk);
          outbox := (outbox (init Examples.empty_disk)
                     ++ [(7%N, Error message)])%list |}).
Proof.
  apply (unknown_ids_change_nothing Base64.b64decode (Examples.host [] 0) 7%N
           [("action", JStr "cancel"); ("task_id", JStr "9_9")]
           (init Examples.empty_disk)).
  left. split; [reflexivity|]. intros key _. apply lookup_empty.
Defined.

End ServerFacts.

Module EventsFacts.
Import Py Eff Core Events EffFacts PyFacts CoreFacts.

Lemma call_recorder update st :
  call_callback (Some recorder) update st
  = (Ret tt, {| cb_state := (cb_state st ++ [update])%list; printed := printed st |}).
Proof. reflexivity. Qed.

Lemma check_ffmpeg_state {St} E (st : St) : snd (check_ffmpeg E st) = st.
Proof.
  unfold check_ffmpeg, try_except, bind, lift, ret.
  destruct (ffmpeg_version E) as [out|e]; simpl; [reflexivity|].
  destruct (ffmpeg_version_caught E e); reflexivity.
Qed.

Lemma get_video_duration_state {St} E input_file (st : St) :
  snd (get_video_duration E input_file st) = st.
Proof.
  unfold get_video_duration, try_except, lift, ret.
  destruct (ffprobe_duration E input_file) as [d|e]; simpl; [reflexivity|].
  destruct (is_Exception e); reflexivity.
Qed.

Lemma get_video_duration_value {St} E input_file (st : St) d :
  fst (get_video_duration E input_file st) = Ret d ->
  d = probed_duration E input_file.
Proof.
  unfold get_video_duration, try_except, lift, ret, probed_duration.
  destruct (ffprobe_duration E input_file) as [d'|e]; simpl.
  - now intros [= <-].
  - destruct (is_Exception e); simpl; [now intros [= <-] | discriminate].
Qed.

(** One line of the progress stream adds at most one event, a progress
    event. *)
Lemma handle_line_log duration line st :
  exists ps,
    cb_state (snd (handle_line (call_callback (Some recorder)) duration line st))
    = (cb_state st ++ ps)%list
    /\ Forall (fun u => is_progress u = true) ps
    /\ (length ps <= 1)%nat.
Proof.
  unfold handle_line. destruct (startswith _ _).
  2:{ exists []. simpl. rewrite app_nil_r. auto. }
  unfold try_except, bind, lift.
  destruct (int_of_str _) as [time_ms|e]; simpl.
  2:{ exists []. destruct (is_ValueError e); simpl; rewrite app_nil_r; auto. }
  destruct (progress_of time_ms duration) as [[pct t]|e]; simpl.
  - eexists [_]. split; [reflexivity|]. split; [repeat constructor | simpl; lia].
  - exists []. destruct (is_ValueError e); simpl; rewrite app_nil_r; auto.
Qed.

Lemma read_progress_log duration lines : forall st,
  exists ps,
    cb_state (snd (read_progress (call_callback (Some recorder)) duration lines st))
    = (cb_state st ++ ps)%list
    /\ Forall (fun u => is_progress u = true) ps
    /\ (length ps <= length lines)%nat.
Proof.
  induction lines as [|line rest IH]; intros st; simpl.
  - exists []. simpl. rewrite app_nil_r. auto.
  - unfold bind.
    destruct (handle_line_log duration line st) as (ps1 & H1 & Hp1 & Hl1).
    destruct (handle_line _ duration line st) as [[[]|e] st1]; simpl in *.
    + destruct (IH st1) as (ps2 & H2 & Hp2 & Hl2).
      exists (ps1 ++ ps2)%list. rewrite H2, H1, app_assoc.
      split; [reflexivity|]. split; [now apply Forall_app|].
      rewrite length_app. lia.
    + exists ps1. split; [exact H1|]. split; [exact Hp1 | lia].
Qed.

(** The log [st'] extends [st] by progress events and one last event
    that is no progress event and is [completed] exactly when [b]. *)
Lemma ends_with_terminal_intro (log log' : list event) ps t b :
  log' = (log ++ ps ++ [t])%list ->
  Forall (fun u => is_progress u = true) ps ->
  is_progress t = false -> is_completed t = b ->
  exists ps t,
    log' = (log ++ ps ++ [t])%list
    /\ Forall (fun u => is_progress u = true) ps
    /\ is_progress t = false
    /\ is_completed t = b.
Proof. eauto 10. Qed.

Ltac one_error :=
  unfold bind; rewrite call_recorder; cbn [fst snd cb_state ret];
  eapply (ends_with_terminal_intro _ _ []);
  [reflexivity | constructor | reflexivity | reflexivity].

Ltac last_event ps Hps :=
  unfold bind; rewrite call_recorder; cbn [fst snd cb_state ret];
  eapply (ends_with_terminal_intro _ _ ps);
  [rewrite Hps, <- app_assoc; reflexivity
  | assumption | reflexivity | reflexivity].

(** A run that returns has handed over progress events and then exactly
    one last event, [completed] or [error]. *)
Lemma convert_video_shape E input_file output_file kwargs st :
  match convert_video E input_file output_file (Some recorder) kwargs st with
  | (Ret b, st') =>
      exists ps t,
        cb_state st' = (cb_state st ++ ps ++ [t])%list
        /\ Forall (fun u => is_progress u = true) ps
        /\ is_progress t = false
        /\ is_completed t = b
  | (Raise _, _) => True
  end.
Proof.
  unfold convert_video.
  destruct (String.eqb input_file ""); [one_error|].
  destruct (String.eqb output_file ""); [one_error|].
  unfold bind at 1.
  pose proof (check_ffmpeg_state E st) as Hck.
  destruct (check_ffmpeg E st) as [[available|e] st0]; simpl in Hck; subst st0;
    [|exact I].
  destruct (negb available); [one_error|].
  destruct (negb (path_exists E input_file)); [one_error|].
  destruct (negb (path_isfile E input_file)); [one_error|].
  unfold bind at 1.
  set (prep := if negb (String.eqb (Path.dirname output_file) "") &&
                  negb (path_exists E (Path.dirname output_file))
               then _ else _).
  assert (Hprep :
    prep st = (Ret true, st)
    \/ (exists t, prep st = (Ret false,
                   {| cb_state := (cb_state st ++ [t])%list; printed := printed st |})
                  /\ is_progress t = false /\ is_completed t = false)
    \/ (exists e st1, prep st = (Raise e, st1))).
  { unfold prep. destruct (_ && _).
    - unfold try_except, bind, lift.
      destruct (makedirs E _) as [[]|e]; simpl.
      + left. reflexivity.
      + destruct (is_Exception e).
        * right. left. eexists. eauto.
        * right. right. eauto.
    - left. reflexivity. }
  destruct Hprep as [->|[(t & -> & Ht1 & Ht2)|(e & st1 & ->)]]; [| |exact I].
  2:{ cbn [negb ret cb_state]. eapply (ends_with_terminal_intro _ _ []); eauto. }
  cbn [negb].
  unfold bind at 1.
  pose proof (get_video_duration_state E input_file st) as Hd.
  destruct (get_video_duration E input_file st) as [[d|e] st0]; simpl in Hd; subst st0;
    [|exact I].
  unfold try_except, bind at 1, lift.
  destruct (popen E _) as [process|e].
  2:{ destruct (is_Exception e); [|exact I]. one_error. }
  unfold bind at 1.
  destruct (read_progress_log d (proc_stdout process) st) as (ps & Hps & Hprog & _).
  destruct (read_progress _ d (proc_stdout process) st) as [[[]|e] st1];
    simpl in Hps.
  2:{ destruct (is_Exception e); [|exact I]. last_event ps Hps. }
  unfold bind at 1.
  destruct (proc_stdout_error process) as [e|].
  { unfold raise. destruct (is_Exception e); [|exact I]. last_event ps Hps. }
  unfold ret at 1.
  destruct (proc_returncode process =? 0); last_event ps Hps.
Qed.

(** A run of [convert_video] that returns has handed its callback
    progress events and then exactly one last event; the last event is
    [completed] when the result is [True] and [error] when it is
    [False]. *)
Theorem one_terminal_event :
  forall E input_file output_file kwargs b,
    recorded E input_file output_file kwargs = Ret b ->
    exists ps t,
      conversion_events E input_file output_file kwargs = (ps ++ [t])%list
      /\ Forall (fun u => is_progress u = true) ps
      /\ is_progress t = false
      /\ is_completed t = b.
Proof.
  intros E input_file output_file kwargs b Hb.
  pose proof (convert_video_shape E input_file output_file kwargs
                {| cb_state := []; printed := [] |}) as H.
  unfold recorded in Hb. unfold conversion_events.
  destruct (convert_video _ _ _ _ _ _) as [[b'|e] st']; simpl in Hb; [|discriminate].
  injection Hb as ->. exact H.
Qed.

(** The theorem on a run of two lines that exits with status 0. *)
Lemma one_terminal_event_witness :
  exists ps t,
    conversion_events (Examples.host ["out_time_ms=2000000"; "speed=1.0x"] 0)
      "in.mov" "out/clip.mp4" ∅ = (ps ++ [t])%list
    /\ Forall (fun u => is_progress u = true) ps
    /\ is_progress t = false
    /\ is_completed t = true.
Proof.
  apply (one_terminal_event (Examples.host ["out_time_ms=2000000"; "speed=1.0x"] 0)
           "in.mov" "out/clip.mp4" ∅ true).
  vm_compute. reflexivity.
Defined.

Lemma check_ffmpeg_value {St} E (st : St) :
  fst (check_ffmpeg E st) = Ret true -> ffmpeg_found E = true.
Proof.
  unfold check_ffmpeg, try_except, bind, lift, ret, ffmpeg_found.
  destruct (ffmpeg_version E) as [out|e]; simpl.
  - now intros [= ->].
  - destruct (ffmpeg_version_caught E e); simpl; discriminate.
Qed.

(** [convert_video] returns [True] only when both paths are given,
    ffmpeg answers the version query, the input exists and is a file,
    and the ffmpeg process was started on the command line built from
    the arguments, was read to its end and exited with status 0. *)
Theorem success_means_exit_status_zero :
  forall E input_file output_file kwargs,
    recorded E input_file output_file kwargs = Ret true ->
    input_file <> "" /\ output_file <> ""
    /\ ffmpeg_found E = true
    /\ path_exists E input_file = true /\ path_isfile E input_file = true
    /\ exists process,
         popen E (build_cmd input_file (final_output E output_file) kwargs)
         = Ret process
         /\ proc_stdout_error process = None
         /\ proc_returncode process = 0.
Proof.
  intros E input_file output_file kwargs. unfold recorded, convert_video.
  set (st := {| cb_state := []; printed := [] |}).
  destruct (String.eqb_spec input_file ""); [discriminate|].
  destruct (String.eqb_spec output_file ""); [discriminate|].
  unfold bind at 1.
  pose proof (check_ffmpeg_state E st) as Hck.
  pose proof (check_ffmpeg_value E st) as Hfound.
  destruct (check_ffmpeg E st) as [[available|e] st0]; simpl in Hck, Hfound;
    subst st0; [|discriminate].
  destruct available; [|discriminate]. cbn [negb].
  destruct (path_exists E input_file); [|discriminate]. cbn [negb].
  destruct (path_isfile E input_file); [|discriminate]. cbn [negb].
  unfold bind at 1.
  set (prep := if negb (String.eqb (Path.dirname output_file) "") &&
                  negb (path_exists E (Path.dirname output_file))
               then _ else _).
  assert (Hprep : prep st = (Ret true, st) \/ fst (prep st) <> Ret true).
  { unfold prep. destruct (_ && _); [|left; reflexivity].
    unfold try_except, bind, lift.
    destruct (makedirs E _) as [[]|e]; [left; reflexivity|].
    right. destruct (is_Exception e); discriminate. }
  destruct Hprep as [->|Hne].
  2:{ destruct (prep st) as [[[]|] ?]; simpl in Hne; try contradiction; discriminate. }
  cbn [negb]. fold (final_output E output_file).
  unfold bind at 1.
  pose proof (get_video_duration_state E input_file st) as Hd.
  destruct (get_video_duration E input_file st) as [[d|e] st0]; simpl in Hd; subst st0;
    [|discriminate].
  unfold try_except, bind at 1, lift.
  destruct (popen E _) as [process|e'].
  2:{ destruct (is_Exception e'); discriminate. }
  unfold bind at 1.
  destruct (read_progress _ _ _ _) as [[[]|e1] st1].
  2:{ destruct (is_Exception e1); discriminate. }
  unfold bind at 1.
  destruct (proc_stdout_error process) as [e2|] eqn:Herr.
  { unfold raise. destruct (is_Exception e2); discriminate. }
  unfold ret at 1. destruct (Z.eqb_spec (proc_returncode process) 0);
    [|discriminate].
  intros _. repeat split; try assumption; auto. exists process. auto.
Qed.

(** The theorem on a successful run. *)
Lemma success_means_exit_status_zero_witness :
  "in.mov" <> "" /\ "out.mp4" <> ""
  /\ ffmpeg_found (Examples.host ["out_time_ms=2000000"] 0) = true
  /\ path_exists (Examples.host ["out_time_ms=2000000"] 0) "in.mov" = true
  /\ path_isfile (Examples.host ["out_time_ms=2000000"] 0) "in.mov" = true
  /\ exists process,
       popen (Examples.host ["out_time_ms=2000000"] 0)
         (build_cmd "in.mov"
            (final_output (Examples.host ["out_time_ms=2000000"] 0) "out.mp4") ∅)
       = Ret process
       /\ proc_stdout_error process = None
       /\ proc_returncode process = 0.
Proof.
  apply (success_means_exit_status_zero (Examples.host ["out_time_ms=2000000"] 0)
           "in.mov" "out.mp4" ∅).
  vm_compute. reflexivity.
Defined.

(** *** Invariants of the recorded log *)

Lemma keeps_bind_pure {S A B} (I : S -> Prop) (m : M S A) (k : A -> M S B) :
  (forall s, snd (m s) = s) ->
  (forall s a, fst (m s) = Ret a -> keeps I (k a)) ->
  keeps I (bind m k).
Proof.
  intros Hpure Hk s Hs. unfold bind.
  specialize (Hpure s). specialize (Hk s).
  destruct (m s) as [[a|e] s']; simpl in *; subst s'.
  - now apply Hk.
  - exact Hs.
Qed.

Lemma keeps_append (P : event -> Prop) update :
  P update ->
  keeps (fun st => Forall P (cb_state st)) (call_callback (Some recorder) update).
Proof.
  intros Hu st Hst. rewrite call_recorder. simpl.
  apply Forall_app. split; [exact Hst | repeat constructor; exact Hu].
Qed.

Lemma keeps_all_handle_line (P : event -> Prop) duration line :
  (forall pct t, P (EvProgress pct t duration)) ->
  keeps (fun st => Forall P (cb_state st))
    (handle_line (call_callback (Some recorder)) duration line).
Proof.
  intros HP. unfold handle_line. destruct (startswith _ _); [|apply keeps_ret].
  apply keeps_try_except; [|intros; apply keeps_ret].
  apply keeps_bind_lift. intros time_ms _.
  apply keeps_bind_lift. intros pt _.
  apply keeps_append, HP.
Qed.

Lemma keeps_all_read_progress (P : event -> Prop) duration lines :
  (forall pct t, P (EvProgress pct t duration)) ->
  keeps (fun st => Forall P (cb_state st))
    (read_progress (call_callback (Some recorder)) duration lines).
Proof.
  intros HP. induction lines as [|line rest IH]; simpl.
  - apply keeps_ret.
  - apply keeps_bind; [now apply keeps_all_handle_line | intros; exact IH].
Qed.

(** The log of a run keeps a property of events that holds of every
    error event, of the progress events with the probed duration, and of
    the [completed] event with the final output path. *)
Lemma keeps_all_convert_video (P : event -> Prop) E input_file output_file kwargs :
  (forall message, P (EvError message)) ->
  (forall pct t, P (EvProgress pct t (probed_duration E input_file))) ->
  P (EvCompleted (final_output E output_file)) ->
  keeps (fun st => Forall P (cb_state st))
    (convert_video E input_file output_file (Some recorder) kwargs).
Proof.
  intros Herr Hprog Hdone. unfold convert_video. cbv zeta.
  fold (final_output E output_file).
  repeat match goal with
  | |- keeps _ (bind (get_video_duration _ _) _) =>
      apply keeps_bind_pure;
      [intros; apply get_video_duration_state
      | let d := fresh "d" in
        let Hd := fresh "Hd" in
        intros ? d Hd; apply get_video_duration_value in Hd; subst d]
  | |- keeps _ (bind (check_ffmpeg _) _) =>
      apply keeps_bind_pure; [intros; apply check_ffmpeg_state | intros]
  | |- keeps _ (bind _ _) => apply keeps_bind; [|intros]
  | |- keeps _ (try_except _ _ _) => apply keeps_try_except; [|intros]
  | |- keeps _ (if ?c then _ else _) => destruct c
  | |- keeps _ (match ?o with Some _ => _ | None => _ end) => destruct o
  | |- keeps _ (ret _) => apply keeps_ret
  | |- keeps _ (raise _) => apply keeps_raise
  | |- keeps _ (lift _) => apply keeps_lift
  | |- keeps _ (read_progress _ _ _) => apply keeps_all_read_progress; assumption
  | |- keeps _ (call_callback _ (EvError _)) => apply keeps_append, Herr
  | |- keeps _ (call_callback _ (EvCompleted _)) => apply keeps_append, Hdone
  end.
Qed.

Lemma conversion_events_all (P : event -> Prop) E input_file output_file kwargs :
  (forall message, P (EvError message)) ->
  (forall pct t, P (EvProgress pct t (probed_duration E input_file))) ->
  P (EvCompleted (final_output E output_file)) ->
  Forall P (conversion_events E input_file output_file kwargs).
Proof.
  intros Herr Hprog Hdone.
  apply (keeps_all_convert_video P E input_file output_file kwargs Herr Hprog Hdone
           {| cb_state := []; printed := [] |}).
  constructor.
Qed.

(** Every progress event carries the duration that
    [get_video_duration] returned (0.0 when the probe failed), and when
    that duration is not positive the percentage is 0. *)
Theorem progress_carries_probed_duration :
  forall E input_file output_file kwargs pct time_sec duration,
    In (EvProgress pct time_sec duration)
       (conversion_events E input_file output_file kwargs) ->
    duration = probed_duration E input_file
    /\ (float_gt0 (probed_duration E input_file) = false -> pct = 0).
Proof.
  intros E input_file output_file kwargs pct time_sec duration Hin.
  assert (Hd : duration = probed_duration E input_file).
  { pose proof (conversion_events_all
                  (fun u => match u with
                            | EvProgress _ _ d => d = probed_duration E input_file
                            | _ => True
                            end)
                  E input_file output_file kwargs
                  (fun _ => Logic.I) (fun _ _ => eq_refl) Logic.I) as Hall.
    rewrite Forall_forall in Hall.
    exact (Hall _ (proj2 (list_elem_of_In _ _) Hin)). }
  split; [exact Hd|]. intros Hzero.
  pose proof (conversion_events_computed E input_file output_file kwargs) as Hall.
  rewrite Forall_forall in Hall.
  destruct (Hall _ (proj2 (list_elem_of_In _ _) Hin)) as [time_ms Hp].
  apply progress_of_bounds in Hp. rewrite Hd in Hp. now apply Hp.
Qed.

(** The theorem on a host where the probe fails. *)
Lemma progress_carries_probed_duration_witness :
  S754_zero false = probed_duration (Scenes.blind_host ["out_time_ms=2000000"] 0) "in.mov"
  /\ (float_gt0 (probed_duration (Scenes.blind_host ["out_time_ms=2000000"] 0) "in.mov")
      = false -> 0 = 0).
Proof.
  apply (progress_carries_probed_duration
           (Scenes.blind_host ["out_time_ms=2000000"] 0) "in.mov" "out.mp4" ∅
           0 (S754_finite false 4503599627370496 (-51)) (S754_zero false)).
  vm_compute. left. reflexivity.
Defined.

(** A [completed] event names the output path as given, or, for a bare
    file name, that name under the working directory. *)
Theorem completed_names_final_output :
  forall E input_file output_file kwargs output,
    In (EvCompleted output) (conversion_events E input_file output_file kwargs) ->
    output = final_output E output_file.
Proof.
  intros E input_file output_file kwargs output Hin.
  pose proof (conversion_events_all
                (fun u => match u with
                          | EvCompleted out => out = final_output E output_file
                          | _ => True
                          end)
                E input_file output_file kwargs
                (fun _ => Logic.I) (fun _ _ => Logic.I) eq_refl) as Hall.
  rewrite Forall_forall in Hall.
  exact (Hall _ (proj2 (list_elem_of_In _ _) Hin)).
Qed.

(** The theorem on a bare output name in the directory [/srv]. *)
Lemma completed_names_final_output_witness :
  "/srv/out.mp4" = final_output (Examples.host [] 0) "out.mp4".
Proof.
  apply (completed_names_final_output (Examples.host [] 0) "in.mov" "out.mp4" ∅).
  vm_compute. left. reflexivity.
Defined.


Lemma check_ffmpeg_found {St} E (st st' : St) available :
  check_ffmpeg E st = (Ret available, st') -> available = ffmpeg_found E.
Proof.
  unfold check_ffmpeg, try_except, bind, lift, ret, ffmpeg_found.
  destruct (ffmpeg_version E) as [out|e]; simpl.
  - now intros [= <- _].
  - destruct (ffmpeg_version_caught E e); simpl; [now intros [= <- _] | discriminate].
Qed.



End EventsFacts.

Module ReplyFacts.
Import Py Eff Json Server Reply EffFacts PyFacts ServerFacts.

Ltac one_reply := eexists; reflexivity.





Lemma replies_upload websocket data w :
  replies_once websocket w (handle_upload websocket data w).
Proof.
  destruct (truthy (get_or_null "file_name" data)) eqn:Htruthy.
  2:{ unfold handle_upload. rewrite Htruthy. simpl. one_reply. }
  destruct (get_or_null "file_name" data) as [|b|n|name|l|o] eqn:Hname;
    try (unfold handle_upload; rewrite Hname, Htruthy; simpl;
         split; reflexivity).
  assert (Hne : name <> "").
  { intros ->. discriminate. }
  rewrite (handle_upload_named websocket data w name Hname Hne).
  destruct (Fs.makedirs _ (files w)) as [[[]|e1] fs1]; [|simpl; one_reply].
  destruct (Fs.open_wb _ fs1) as [[h|e2] fs2]; simpl; one_reply.
Qed.






End ReplyFacts.

Module IdsFacts.
Import Py Eff Json Server Ids EffFacts PyFacts ServerFacts.

Lemma pretty_N_go_no_underscore x : forall s,
  has_char "_" s = false -> has_char "_" (pretty_N_go x s) = false.
Proof.
  induction (N.lt_wf_0 x) as [x _ IH]; intros s Hs.
  assert (x = 0 \/ 0 < x)%N as [->|Hpos] by lia.
  - now rewrite pretty_N_go_0.
  - rewrite pretty_N_go_step by exact Hpos. apply IH.
    + now apply N.div_lt.
    + simpl. rewrite Hs. unfold pretty_N_char.
      destruct (x `mod` 10)%N as [|p]; [reflexivity|].
      do 5 (try (destruct p as [p|p|]; try reflexivity)).
Qed.

Lemma pretty_N_no_underscore (x : N) : has_char "_" (pretty x) = false.
Proof.
  unfold pretty, pretty_N. case_decide; [reflexivity|].
  now apply pretty_N_go_no_underscore.
Qed.

Lemma append_underscore_inj s1 : forall s2 t1 t2,
  has_char "_" s1 = false -> has_char "_" s2 = false ->
  s1 +:+ String "_" t1 = s2 +:+ String "_" t2 -> s1 = s2 /\ t1 = t2.
Proof.
  induction s1 as [|c s1 IH]; intros [|d s2] t1 t2 H1 H2 Heq; simpl in *.
  - now injection Heq as ->.
  - injection Heq as Hd _. subst d. simpl in H2. discriminate.
  - injection Heq as Hc _. subst c. simpl in H1. discriminate.
  - injection Heq as -> Heq.
    apply orb_false_iff in H1 as [_ H1]. apply orb_false_iff in H2 as [_ H2].
    destruct (IH _ _ _ H1 H2 Heq) as [-> ->]. auto.
Qed.

(** Two ids are equal only when made for the same connection from the
    same count. *)
Lemma make_id_inj c1 n1 c2 n2 :
  make_id c1 n1 = make_id c2 n2 -> c1 = c2 /\ n1 = n2.
Proof.
  unfold make_id. intros H.
  apply append_underscore_inj in H as [Hc Hn];
    [|apply pretty_N_no_underscore..].
  split; [now apply (inj pretty) | now apply (inj pretty)].
Qed.

Lemma keys_below_fresh {V} (m : gmap string V) c :
  keys_below m -> m !! make_id c (size m) = None.
Proof.
  intros Hm. destruct (m !! make_id c (size m)) as [v|] eqn:Hl; [|reflexivity].
  destruct (Hm _ (ex_intro _ v Hl)) as (c' & n & Heq & Hlt).
  apply make_id_inj in Heq as [_ <-]. lia.
Qed.

Lemma keys_below_insert {V} (m : gmap string V) c v :
  keys_below m -> keys_below (<[make_id c (size m) := v]> m).
Proof.
  intros Hm key Hkey.
  rewrite map_size_insert_None by now apply keys_below_fresh.
  rewrite lookup_insert in Hkey. case_decide.
  - subst key. exists c, (size m). split; [reflexivity | lia].
  - destruct (Hm key Hkey) as (c' & n & -> & Hlt). exists c', n. split; [reflexivity | lia].
Qed.

Lemma started_ids_app l1 l2 :
  started_ids (l1 ++ l2) = (started_ids l1 ++ started_ids l2)%list.
Proof.
  induction l1 as [|[c r] l1 IH]; simpl; [reflexivity|].
  destruct r; simpl; now rewrite IH.
Qed.
Lemma same_send w0 websocket r :
  (forall task_id, r <> TaskStarted task_id) ->
  keeps (same_tasks w0) (send websocket r).
Proof.
  intros Hr w [Ht Hs]. split; [exact Ht|]. simpl.
  rewrite started_ids_app, Hs. simpl.
  destruct r; try apply app_nil_r. now destruct (Hr task_id).
Qed.

Lemma same_on_files {A} w0 (m : M Fs.files A) : keeps (same_tasks w0) (on_files m).
Proof.
  intros w H. unfold on_files. destruct (m (files w)) as [r fs]. exact H.
Qed.

Lemma same_set_uploads w0 f : keeps (same_tasks w0) (modify (set_uploads f)).
Proof. intros w H. exact H. Qed.

Ltac same_step :=
  match goal with
  | |- keeps _ (bind _ _) => apply keeps_bind; [|intros]
  | |- keeps _ (try_except _ _ _) => apply keeps_try_except; [|intros]
  | |- keeps _ (try_finally _ _) => apply keeps_try_finally
  | |- keeps _ (ret _) => apply keeps_ret
  | |- keeps _ (raise _) => apply keeps_raise
  | |- keeps _ (lift _) => apply keeps_lift
  | |- keeps _ Eff.get => apply keeps_get
  | |- keeps _ (send _ _) => apply same_send; discriminate
  | |- keeps _ (on_files _) => apply same_on_files
  | |- keeps _ (modify (set_uploads _)) => apply same_set_uploads
  | |- keeps _ (Core.check_ffmpeg _) => unfold Core.check_ffmpeg
  | |- keeps _ (if ?c then _ else _) => destruct c
  | |- keeps _ (match ?x with _ => _ end) => destruct x
  end.

Lemma same_check_ffmpeg w0 E websocket :
  keeps (same_tasks w0) (handle_check_ffmpeg E websocket).
Proof. unfold handle_check_ffmpeg. repeat same_step. Qed.

Lemma same_upload w0 websocket data :
  keeps (same_tasks w0) (handle_upload websocket data).
Proof. unfold handle_upload. repeat same_step. Qed.

Lemma same_upload_chunk w0 b64decode websocket data :
  keeps (same_tasks w0) (handle_upload_chunk b64decode websocket data).
Proof. unfold handle_upload_chunk. repeat same_step. Qed.

Lemma same_upload_complete w0 websocket data :
  keeps (same_tasks w0) (handle_upload_complete websocket data).
Proof. unfold handle_upload_complete. repeat same_step. Qed.

(** A message that is no [cancel] leaves the task map and the announced
    ids alone, or adds one task under the id made from the size of the
    map and announces it. *)
Lemma process_message_tasks b64decode E websocket message w :
  is_cancel (Receive websocket message) = false ->
  let w' := snd (process_message b64decode E websocket message w) in
  same_tasks w w'
  \/ (tasks w' = <[make_id websocket (size (tasks w)) := length (jobs w)]> (tasks w)
      /\ started_ids (outbox w')
         = (started_ids (outbox w) ++ [make_id websocket (size (tasks w))])%list).
Proof.
  intros Hnc. cbv zeta.
  assert (Hrefl : same_tasks w w) by (split; reflexivity).
  destruct message as [parsed|].
  2:{ left. now apply (same_send w websocket (Error "Invalid JSON format")). }
  destruct parsed as [|b|n|s|l|data];
    try (left; now apply (same_send w websocket (Error _))).
  simpl in Hnc. unfold process_message.
  change (lift (members_of (JObj data))) with (@lift world _ (Ret data)).
  destruct (is_action "convert" (get_or_null "action" data)) eqn:Hconv.
  - unfold try_except, bind, lift. rewrite Hconv.
    unfold handle_convert_request.
    destruct (negb _ || negb _).
    + left. now apply (same_send w websocket (Error _)).
    + right. simpl. split; [reflexivity|].
      rewrite started_ids_app. reflexivity.
  - left. apply keeps_try_except; [| intros; apply same_send; discriminate | exact Hrefl].
    apply keeps_bind_lift. intros data' [= <-]. rewrite Hconv, Hnc.
    repeat match goal with
    | |- keeps _ (if ?c then _ else _) => destruct c
    end;
    auto using same_check_ffmpeg, same_upload, same_upload_chunk,
      same_upload_complete.
    apply same_send. discriminate.
Qed.

Lemma ids_fresh_step b64decode E l w w' :
  is_cancel l = false -> step b64decode E l w = Some w' ->
  ids_fresh w -> ids_fresh w'.
Proof.
  intros Hnc Hstep (Hkeys & Hnodup & Hdom).
  assert (Hsame : same_tasks w w' -> ids_fresh w').
  { intros [Ht Hs]. unfold ids_fresh. rewrite Ht, Hs. auto. }
  destruct l as [websocket message|task|task]; simpl in Hstep.
  - injection Hstep as <-.
    destruct (process_message_tasks b64decode E websocket message w Hnc)
      as [H|[Ht Hs]]; [now apply Hsame|].
    pose proof (keys_below_fresh (tasks w) websocket Hkeys) as Hnone.
    unfold ids_fresh. rewrite Ht, Hs. split; [now apply keys_below_insert|]. split.
    + apply NoDup_app. split; [exact Hnodup|]. split; [|apply NoDup_singleton].
      intros key Hin Hin'. apply list_elem_of_In in Hin.
      apply list_elem_of_singleton in Hin'. subst key.
      destruct (Hdom _ Hin) as [v Hv]. congruence.
    + intros key Hin. apply in_app_or in Hin as [Hin|[<-|[]]].
      * rewrite lookup_insert. case_decide; [eauto | now apply Hdom].
      * rewrite lookup_insert_eq. eauto.
  - apply Hsame. unfold start_thread in Hstep.
    destruct (jobs w !! task) as [j|]; simpl in Hstep; [|discriminate].
    destruct (job_thread j); try discriminate.
    destruct (job_cancelled j); [discriminate|].
    injection Hstep as <-. split; reflexivity.
  - apply Hsame. unfold emit in Hstep.
    destruct (jobs w !! task) as [j|]; simpl in Hstep; [|discriminate].
    destruct (job_thread j) as [|[|update rest]|]; try discriminate;
      injection Hstep as <-; split; try reflexivity.
    simpl. rewrite started_ids_app. simpl. apply app_nil_r.
Qed.

Lemma ids_fresh_run b64decode E ls : forall w w',
  forallb (fun l => negb (is_cancel l)) ls = true ->
  run b64decode E ls w = Some w' -> ids_fresh w -> ids_fresh w'.
Proof.
  induction ls as [|l rest IH]; simpl; intros w w' Hnc Hrun Hw.
  - now injection Hrun as <-.
  - apply andb_true_iff in Hnc as [Hl Hrest]. apply negb_true_iff in Hl.
    destruct (step b64decode E l w) as [w1|] eqn:Hstep; simpl in Hrun; [|discriminate].
    eapply IH; eauto using ids_fresh_step.
Qed.

(** As long as no [cancel] message arrives, the task ids the server
    announces are pairwise different, over all connections, and each is
    a key of the task map. *)
Theorem task_ids_unique_without_cancel :
  forall b64decode E fs labels w,
    run b64decode E labels (init fs) = Some w ->
    forallb (fun l => negb (is_cancel l)) labels = true ->
    NoDup (started_ids (outbox w))
    /\ (forall task_id, In task_id (started_ids (outbox w)) ->
                        is_Some (tasks w !! task_id)).
Proof.
  intros b64decode E fs labels w Hrun Hnc.
  assert (Hinit : ids_fresh (init fs)).
  { split; [|split].
    - intros key [v Hv]. simpl in Hv. rewrite lookup_empty in Hv. discriminate.
    - constructor.
    - intros key []. }
  destruct (ids_fresh_run b64decode E labels _ _ Hnc Hrun Hinit) as (_ & Hnodup & Hdom).
  auto.
Qed.

(** The theorem on three submissions from two connections. *)
Lemma task_ids_unique_without_cancel_witness :
  NoDup (started_ids (outbox
     (Examples.server_after (Examples.host [] 0) Examples.empty_disk
        three_submissions)))
  /\ (forall task_id,
        In task_id (started_ids (outbox
          (Examples.server_after (Examples.host [] 0) Examples.empty_disk
             three_submissions))) ->
        is_Some (tasks (Examples.server_after (Examples.host [] 0)
                          Examples.empty_disk three_submissions) !! task_id)).
Proof.
  apply (task_ids_unique_without_cancel Base64.b64decode (Examples.host [] 0)
           Examples.empty_disk three_submissions).
  - vm_compute. reflexivity.
  - reflexivity.
Defined.

(** *** Upload ids *)

Lemma init_ids_app l1 l2 :
  init_ids (l1 ++ l2) = (init_ids l1 ++ init_ids l2)%list.
Proof.
  induction l1 as [|[c r] l1 IH]; simpl; [reflexivity|].
  destruct r; simpl; now rewrite IH.
Qed.

Lemma sessions_send w0 websocket r :
  (forall upload_id, r <> UploadInit upload_id) ->
  keeps (same_sessions w0) (send websocket r).
Proof.
  intros Hr w [Ht Hs]. split; [exact Ht|]. simpl.
  rewrite init_ids_app, Hs. simpl.
  destruct r; try apply app_nil_r. now destruct (Hr upload_id).
Qed.

Lemma sessions_on_files {A} w0 (m : M Fs.files A) :
  keeps (same_sessions w0) (on_files m).
Proof.
  intros w H. unfold on_files. destruct (m (files w)) as [r fs]. exact H.
Qed.

Lemma sessions_set_tasks w0 f : keeps (same_sessions w0) (modify (set_tasks f)).
Proof. intros w H. exact H. Qed.

Lemma sessions_set_jobs w0 f : keeps (same_sessions w0) (modify (set_jobs f)).
Proof. intros w H. exact H. Qed.

Lemma sessions_alter w0 f key :
  keeps (same_sessions w0) (modify (set_uploads (alter f key))).
Proof.
  intros w [Hd Hs]. split; [|exact Hs]. simpl. now rewrite dom_alter_L.
Qed.

Ltac sessions_step :=
  match goal with
  | |- keeps _ (bind _ _) => apply keeps_bind; [|intros]
  | |- keeps _ (try_except _ _ _) => apply keeps_try_except; [|intros]
  | |- keeps _ (ret _) => apply keeps_ret
  | |- keeps _ (raise _) => apply keeps_raise
  | |- keeps _ (lift _) => apply keeps_lift
  | |- keeps _ Eff.get => apply keeps_get
  | |- keeps _ (send _ _) => apply sessions_send; discriminate
  | |- keeps _ (on_files _) => apply sessions_on_files
  | |- keeps _ (modify (set_tasks _)) => apply sessions_set_tasks
  | |- keeps _ (modify (set_jobs _)) => apply sessions_set_jobs
  | |- keeps _ (modify (set_uploads (alter _ _))) => apply sessions_alter
  | |- keeps _ (Core.check_ffmpeg _) => unfold Core.check_ffmpeg
  | |- keeps _ (if ?c then _ else _) => destruct c
  | |- keeps _ (match ?x with _ => _ end) => destruct x
  end.

Lemma sessions_convert w0 websocket data :
  keeps (same_sessions w0) (handle_convert_request websocket data).
Proof. unfold handle_convert_request. repeat sessions_step. Qed.

Lemma sessions_check_ffmpeg w0 E websocket :
  keeps (same_sessions w0) (handle_check_ffmpeg E websocket).
Proof. unfold handle_check_ffmpeg. repeat sessions_step. Qed.

Lemma sessions_cancel w0 websocket data :
  keeps (same_sessions w0) (handle_cancel_request websocket data).
Proof. unfold handle_cancel_request. repeat sessions_step. Qed.

Lemma sessions_upload_chunk w0 b64decode websocket data :
  keeps (same_sessions w0) (handle_upload_chunk b64decode websocket data).
Proof. unfold handle_upload_chunk. repeat sessions_step. Qed.

(** What [handle_upload] does to the session map and to the announced
    ids: nothing, or one new key made from the size of the map, which is
    announced when the file could be opened. *)
Lemma handle_upload_sessions websocket data w :
  let w' := snd (handle_upload websocket data w) in
  same_sessions w w'
  \/ (dom (uploads w') = {[make_id websocket (size (uploads w))]} ∪ dom (uploads w)
      /\ (init_ids (outbox w') = init_ids (outbox w)
          \/ init_ids (outbox w')
             = (init_ids (outbox w) ++ [make_id websocket (size (uploads w))])%list)).
Proof.
  cbv zeta.
  assert (Hrefl : same_sessions w w) by (split; reflexivity).
  destruct (truthy (get_or_null "file_name" data)) eqn:Htruthy.
  2:{ left. unfold handle_upload. rewrite Htruthy.
      now apply (sessions_send w websocket (Error _)). }
  destruct (get_or_null "file_name" data) as [|b|n|name|l|o] eqn:Hname;
    try (left; unfold handle_upload; rewrite Hname, Htruthy; exact Hrefl).
  assert (Hne : name <> "") by (intros ->; discriminate).
  right. rewrite (handle_upload_named websocket data w name Hname Hne).
  destruct (Fs.makedirs _ (files w)) as [[[]|e1] fs1].
  - destruct (Fs.open_wb _ fs1) as [[h|e2] fs2]; simpl.
    + rewrite dom_alter_L, dom_insert_L. split; [reflexivity|].
      right. rewrite init_ids_app. reflexivity.
    + rewrite dom_insert_L. split; [reflexivity|].
      left. rewrite init_ids_app. simpl. apply app_nil_r.
  - simpl. rewrite dom_insert_L. split; [reflexivity|].
    left. rewrite init_ids_app. simpl. apply app_nil_r.
Qed.

Lemma process_message_sessions b64decode E websocket message w :
  is_complete (Receive websocket message) = false ->
  let w' := snd (process_message b64decode E websocket message w) in
  same_sessions w w'
  \/ (dom (uploads w') = {[make_id websocket (size (uploads w))]} ∪ dom (uploads w)
      /\ (init_ids (outbox w') = init_ids (outbox w)
          \/ init_ids (outbox w')
             = (init_ids (outbox w) ++ [make_id websocket (size (uploads w))])%list)).
Proof.
  intros Hnc. cbv zeta.
  assert (Hrefl : same_sessions w w) by (split; reflexivity).
  destruct message as [parsed|].
  2:{ left. now apply (sessions_send w websocket (Error "Invalid JSON format")). }
  destruct parsed as [|b|n|s|l|data];
    try (left; now apply (sessions_send w websocket (Error _))).
  simpl in Hnc. unfold process_message.
  change (lift (members_of (JObj data))) with (@lift world _ (Ret data)).
  destruct (is_action "upload" (get_or_null "action" data)) eqn:Hup.
  - assert (Hact : get_or_null "action" data = JStr "upload")
      by now apply is_action_eq.
    unfold try_except, bind, lift. rewrite Hact. cbn [is_action String.eqb Ascii.eqb Bool.eqb].
    pose proof (handle_upload_sessions websocket data w) as H. cbv zeta in H.
    pose proof (ReplyFacts.replies_upload websocket data w) as Hr.
    destruct (handle_upload websocket data w) as [[[]|e] w1]; simpl in *.
    + exact H.
    + destruct Hr as [He Hout]. rewrite He.
      destruct H as [[Hd Hi]|[Hd Hi]].
      * left. split; simpl; [exact Hd|]. rewrite init_ids_app, Hi. apply app_nil_r.
      * right. simpl. split; [exact Hd|]. rewrite init_ids_app. simpl.
        rewrite app_nil_r. exact Hi.
  - left. apply keeps_try_except; [| intros; apply sessions_send; discriminate | exact Hrefl].
    apply keeps_bind_lift. intros data' [= <-]. rewrite Hup, Hnc.
    repeat match goal with
    | |- keeps _ (if ?c then _ else _) => destruct c
    end;
    auto using sessions_convert, sessions_check_ffmpeg, sessions_cancel,
      sessions_upload_chunk.
    apply sessions_send. discriminate.
Qed.

Lemma keys_below_dom {V} (m m' : gmap string V) :
  dom m' = dom m -> keys_below m -> keys_below m'.
Proof.
  intros Hd Hm key Hkey. apply elem_of_dom in Hkey. rewrite Hd in Hkey.
  apply elem_of_dom in Hkey. rewrite <- (size_dom m'), Hd, size_dom.
  now apply Hm.
Qed.

Lemma keys_below_dom_insert {V} (m m' : gmap string V) c :
  dom m' = {[make_id c (size m)]} ∪ dom m -> keys_below m -> keys_below m'.
Proof.
  intros Hd Hm key Hkey.
  pose proof (keys_below_fresh m c Hm) as Hnone. apply not_elem_of_dom in Hnone.
  assert (Hsize : size m' = S (size m)).
  { rewrite <- (size_dom m'), Hd, size_union.
    - now rewrite size_singleton, size_dom.
    - now apply disjoint_singleton_l. }
  rewrite Hsize. apply elem_of_dom in Hkey. rewrite Hd in Hkey.
  apply elem_of_union in Hkey as [Hkey|Hkey].
  - apply elem_of_singleton in Hkey. subst key.
    exists c, (size m). split; [reflexivity | lia].
  - apply elem_of_dom in Hkey. destruct (Hm key Hkey) as (c' & n & -> & Hlt).
    exists c', n. split; [reflexivity | lia].
Qed.

Lemma sessions_fresh_step b64decode E l w w' :
  is_complete l = false -> step b64decode E l w = Some w' ->
  sessions_fresh w -> sessions_fresh w'.
Proof.
  intros Hnc Hstep (Hkeys & Hnodup & Hdom).
  assert (Hsame : same_sessions w w' -> sessions_fresh w').
  { intros [Hd Hs]. unfold sessions_fresh. rewrite Hs.
    split; [now apply (keys_below_dom (uploads w))|]. split; [exact Hnodup|].
    intros key Hin. apply elem_of_dom. rewrite Hd. apply elem_of_dom. auto. }
  destruct l as [websocket message|task|task]; simpl in Hstep.
  - injection Hstep as <-.
    destruct (process_message_sessions b64decode E websocket message w Hnc)
      as [H|[Hd Hs]]; [now apply Hsame|].
    pose proof (keys_below_fresh (uploads w) websocket Hkeys) as Hnone.
    split; [now apply (keys_below_dom_insert (uploads w) _ websocket)|].
    assert (Hkeep : forall key, In key (init_ids (outbox w)) ->
              is_Some (uploads (process_message b64decode E websocket message w).2 !! key)).
    { intros key Hin. apply elem_of_dom. rewrite Hd. apply elem_of_union_r.
      apply elem_of_dom. auto. }
    destruct Hs as [Hs|Hs]; rewrite Hs; [auto|]. split.
    + apply NoDup_app. split; [exact Hnodup|]. split; [|apply NoDup_singleton].
      intros key Hin Hin'. apply list_elem_of_In in Hin.
      apply list_elem_of_singleton in Hin'. subst key.
      destruct (Hdom _ Hin) as [v Hv]. congruence.
    + intros key Hin. apply in_app_or in Hin as [Hin|[<-|[]]]; [auto|].
      apply elem_of_dom. rewrite Hd. apply elem_of_union_l.
      now apply elem_of_singleton.
  - apply Hsame. unfold start_thread in Hstep.
    destruct (jobs w !! task) as [j|]; simpl in Hstep; [|discriminate].
    destruct (job_thread j); try discriminate.
    destruct (job_cancelled j); [discriminate|].
    injection Hstep as <-. split; reflexivity.
  - apply Hsame. unfold emit in Hstep.
    destruct (jobs w !! task) as [j|]; simpl in Hstep; [|discriminate].
    destruct (job_thread j) as [|[|update rest]|]; try discriminate;
      injection Hstep as <-; split; try reflexivity.
    simpl. rewrite init_ids_app. simpl. apply app_nil_r.
Qed.

Lemma sessions_fresh_run b64decode E ls : forall w w',
  forallb (fun l => negb (is_complete l)) ls = true ->
  run b64decode E ls w = Some w' -> sessions_fresh w -> sessions_fresh w'.
Proof.
  induction ls as [|l rest IH]; simpl; intros w w' Hnc Hrun Hw.
  - now injection Hrun as <-.
  - apply andb_true_iff in Hnc as [Hl Hrest]. apply negb_true_iff in Hl.
    destruct (step b64decode E l w) as [w1|] eqn:Hstep; simpl in Hrun; [|discriminate].
    eapply IH; eauto using sessions_fresh_step.
Qed.

(** As long as no [upload_complete] message arrives, the upload ids the
    server announces are pairwise different, over all connections, and
    each is a key of the session map. *)
Theorem upload_ids_unique_without_complete :
  forall b64decode E fs labels w,
    run b64decode E labels (init fs) = Some w ->
    forallb (fun l => negb (is_complete l)) labels = true ->
    NoDup (init_ids (outbox w))
    /\ (forall upload_id, In upload_id (init_ids (outbox w)) ->
                          is_Some (uploads w !! upload_id)).
Proof.
  intros b64decode E fs labels w Hrun Hnc.
  assert (Hinit : sessions_fresh (init fs)).
  { split; [|split].
    - intros key [v Hv]. simpl in Hv. rewrite lookup_empty in Hv. discriminate.
    - constructor.
    - intros key []. }
  destruct (sessions_fresh_run b64decode E labels _ _ Hnc Hrun Hinit)
    as (_ & Hnodup & Hdom).
  auto.
Qed.

(** The theorem on three uploads from two connections, one of which
    cannot be opened, with a chunk in between. *)
Lemma upload_ids_unique_without_complete_witness :
  NoDup (init_ids (outbox
     (Examples.server_after (Examples.host [] 0) Examples.empty_disk
        two_uploads)))
  /\ (forall upload_id,
        In upload_id (init_ids (outbox
          (Examples.server_after (Examples.host [] 0) Examples.empty_disk
             two_uploads))) ->
        is_Some (uploads (Examples.server_after (Examples.host [] 0)
                            Examples.empty_disk two_uploads) !! upload_id)).
Proof.
  apply (upload_ids_unique_without_complete Base64.b64decode
           (Examples.host [] 0) Examples.empty_disk two_uploads).
  - vm_compute. reflexivity.
  - reflexivity.
Defined.

End IdsFacts.

Module SessionsFacts.
Import Py Eff Json Server Sessions EffFacts PyFacts ServerFacts.

Lemma write_returns h data fs fs' :
  Fs.write h data fs = (Ret tt, fs') ->
  exists f, Fs.handles fs !! h = Some f
    /\ Fs.handles fs'
       = <[h := {| Fs.of_loc := Fs.of_loc f;
                   Fs.of_pos := (Fs.of_pos f + length data)%nat |}]> (Fs.handles fs)
    /\ (forall loc, loc <> Fs.of_loc f -> Fs.nodes fs' !! loc = Fs.nodes fs !! loc).
Proof.
  unfold Fs.write. destruct (Fs.handles fs !! h) as [f|]; [|discriminate].
  intros [= <-]. exists f. split; [reflexivity|]. split; [reflexivity|].
  intros loc Hloc. simpl. now rewrite lookup_insert_ne.
Qed.

Lemma write_raises h data fs e fs' :
  Fs.write h data fs = (Raise e, fs') -> fs' = fs.
Proof.
  unfold Fs.write. destruct (Fs.handles fs !! h) as [f|]; [discriminate|].
  now intros [= _ <-].
Qed.

(** What a chunk message does to the sessions and the files: nothing,
    or one write through the file object of the session it names,
    counted in that session. *)
Lemma handle_upload_chunk_cases b64decode websocket data w :
  let w' := snd (handle_upload_chunk b64decode websocket data w) in
  tasks w' = tasks w /\ jobs w' = jobs w
  /\ (untouched w w'
      \/ exists key u h bytes,
           get_or_null "upload_id" data = JStr key
           /\ uploads w !! key = Some u /\ file_handle u = Some h
           /\ Fs.write h bytes (files w) = (Ret tt, files w')
           /\ uploads w'
              = alter (add_uploaded (Z.of_nat (length bytes))) key (uploads w)).
Proof.
  cbv zeta.
  destruct (handle_upload_chunk b64decode websocket data w) as [res w'] eqn:H.
  cbn [snd]. revert H.
  assert (Hsend : forall ws r, send ws r w = (res, w') ->
            tasks w' = tasks w /\ jobs w' = jobs w /\ untouched w w').
  { intros ws r [= _ <-]. repeat split. }
  assert (Hnone : forall e, (Raise e, w) = (res, w') ->
            tasks w' = tasks w /\ jobs w' = jobs w /\ untouched w w').
  { intros e [= _ <-]. repeat split. }
  assert (Hleft : tasks w' = tasks w /\ jobs w' = jobs w /\ untouched w w' ->
            tasks w' = tasks w /\ jobs w' = jobs w
            /\ (untouched w w'
                \/ exists key u h bytes,
                     get_or_null "upload_id" data = JStr key
                     /\ uploads w !! key = Some u /\ file_handle u = Some h
                     /\ Fs.write h bytes (files w) = (Ret tt, files w')
                     /\ uploads w'
                        = alter (add_uploaded (Z.of_nat (length bytes))) key
                            (uploads w))).
  { intros (H1 & H2 & H3). auto. }
  unfold handle_upload_chunk.
  destruct (negb _ || negb _); [intros H; eapply Hleft, Hsend, H|].
  unfold bind at 1, Eff.get at 1. cbv beta iota.
  unfold bind at 1, lift at 1.
  destruct (member (get_or_null "upload_id" data) (uploads w))
    as [[[key u]|]|e] eqn:Hmem; cbv beta iota;
    [| intros H; eapply Hleft, Hsend, H | intros H; eapply Hleft, Hnone, H].
  assert (Hkey : get_or_null "upload_id" data = JStr key /\ uploads w !! key = Some u).
  { unfold member in Hmem. destruct (get_or_null "upload_id" data); try discriminate.
    destruct (uploads w !! s) eqn:Hl; [|discriminate].
    injection Hmem as <- <-. auto. }
  destruct Hkey as [Hid Hu].
  destruct (file_handle u) as [h|] eqn:Hh; [| intros H; eapply Hleft, Hsend, H].
  unfold try_except, bind at 1, lift at 1.
  destruct (decode_chunk b64decode (get_or_null "chunk" data)) as [bytes|e] eqn:Hdec.
  2:{ destruct (is_Exception e); intros H;
        [eapply Hleft, Hsend, H | eapply Hleft, Hnone, H]. }
  unfold bind, lift, on_files.
  destruct (Fs.write h bytes (files w)) as [[[]|e] fs'] eqn:Hw.
  2:{ apply write_raises in Hw. subst fs'.
      replace {| tasks := tasks w; uploads := uploads w; files := files w;
                 jobs := jobs w; outbox := outbox w |} with w by now destruct w.
      destruct (is_Exception e); intros H;
        [eapply Hleft, Hsend, H | eapply Hleft, Hnone, H]. }
  cbn [fst snd modify set_uploads tasks uploads files jobs outbox].
  destruct (upload_percent _ (file_size u)) as [pct|e] eqn:Hp;
    [|destruct (is_Exception e)];
    cbn [fst snd send modify set_uploads tasks uploads files jobs outbox];
    intros [= _ <-];
    (split; [reflexivity|]; split; [reflexivity|];
     right; exists key, u, h, bytes; auto).
Qed.

(** What [upload_complete] does for a session that is there. *)
Lemma handle_upload_complete_found websocket data w key u :
  get_or_null "upload_id" data = JStr key -> key <> "" ->
  uploads w !! key = Some u ->
  handle_upload_complete websocket data w
  = (Ret tt,
     {| tasks := tasks w;
        uploads := delete key (uploads w);
        files := closed (file_handle u) (files w);
        jobs := jobs w;
        outbox := (outbox w ++
          [(websocket,
            if has_content (files w) (file_path u)
            then UploadComplete key (file_path u) (file_name u)
            else Error "Uploaded file is empty or does not exist")])%list |}).
Proof.
  intros Hid Hkey Hu.
  unfold handle_upload_complete. rewrite Hid. unfold truthy.
  rewrite (proj2 (String.eqb_neq key "") Hkey). cbn [negb].
  unfold bind at 1. unfold Eff.get at 1. cbv beta iota.
  unfold bind at 1. unfold lift at 1, member. rewrite Hu. cbv beta iota.
  unfold has_content, closed.
  destruct (file_handle u) as [h|] eqn:Hh.
  - unfold try_finally, try_except, bind, Eff.get, lift, on_files, Fs.close, send,
      modify, ret, Fs.exists_, Fs.getsize.
    cbn [fst snd set_uploads tasks uploads files jobs outbox Fs.nodes Fs.handles].
    destruct (Fs.nodes (files w) !! Path.resolve (file_path u)) as [[|content]|];
      [| |destruct (Fs.anchor (Path.resolve (file_path u)))];
      rewrite ?orb_true_r, ?orb_false_r, ?andb_true_l, ?andb_false_l;
      cbn [fst snd set_uploads tasks uploads files jobs outbox Fs.nodes Fs.handles orb
           andb];
      repeat match goal with
      | |- context [if ?c then _ else _] => destruct c
      end;
      cbn [fst snd set_uploads tasks uploads files jobs outbox Fs.nodes Fs.handles];
      rewrite ?lookup_alter, ?decide_True by reflexivity; rewrite ?Hu;
      cbn [fst snd set_uploads tasks uploads files jobs outbox Fs.nodes Fs.handles
           fmap option_fmap option_map with_handle file_handle];
      unfold set_uploads; cbn [tasks uploads files jobs outbox];
      rewrite ?delete_alter; rewrite ?decide_True by reflexivity; reflexivity.
  - unfold try_finally, try_except, bind, Eff.get, lift, on_files, Fs.close, send,
      modify, ret, Fs.exists_, Fs.getsize.
    cbn [fst snd set_uploads tasks uploads files jobs outbox Fs.nodes Fs.handles].
    destruct (Fs.nodes (files w) !! Path.resolve (file_path u)) as [[|content]|];
      [| |destruct (Fs.anchor (Path.resolve (file_path u)))];
      rewrite ?orb_true_r, ?orb_false_r, ?andb_true_l, ?andb_false_l;
      cbn [fst snd set_uploads tasks uploads files jobs outbox Fs.nodes Fs.handles orb
           andb];
      repeat match goal with
      | |- context [if ?c then _ else _] => destruct c
      end;
      cbn [fst snd set_uploads tasks uploads files jobs outbox Fs.nodes Fs.handles];
      rewrite ?Hu, ?Hh;
      cbn [fst snd set_uploads tasks uploads files jobs outbox Fs.nodes Fs.handles];
      destruct w as [t up [ns hs] js out]; reflexivity.
Qed.

Lemma tracks_insert_closed sessions open_files key s :
  tracks sessions open_files -> file_handle s = None ->
  tracks (<[key := s]> sessions) open_files.
Proof.
  intros [Hopen Hinj] Hs. split.
  - intros k u h Hu Hh. rewrite lookup_insert in Hu. case_decide.
    + injection Hu as <-. congruence.
    + eauto.
  - intros k1 k2 u1 u2 h Hu1 Hu2 Hh1 Hh2.
    rewrite lookup_insert in Hu1. rewrite lookup_insert in Hu2.
    repeat case_decide; simplify_eq; try congruence. eauto.
Qed.

Lemma tracks_open sessions open_files key s h :
  tracks sessions open_files -> open_files !! h = None ->
  file_handle s = Some h -> uploaded_size s = 0 ->
  tracks (<[key := s]> sessions)
    (<[h := {| Fs.of_loc := Path.resolve (file_path s); Fs.of_pos := 0 |}]> open_files).
Proof.
  intros [Hopen Hinj] Hnone Hs Hzero.
  assert (Hother : forall k u, sessions !! k = Some u -> file_handle u <> Some h).
  { intros k u Hu Hh. destruct (Hopen k u h Hu Hh) as (f & Hf & _). congruence. }
  split.
  - intros k u h' Hu Hh. rewrite lookup_insert in Hu. case_decide.
    + injection Hu as <-. assert (h' = h) by congruence. subst h'.
      rewrite lookup_insert_eq. eexists. split; [reflexivity|]. simpl.
      split; [reflexivity | now rewrite Hzero].
    + assert (h' <> h) by (intros ->; exact (Hother k u Hu Hh)).
      rewrite lookup_insert_ne by congruence. eauto.
  - intros k1 k2 u1 u2 h' Hu1 Hu2 Hh1 Hh2.
    rewrite lookup_insert in Hu1. rewrite lookup_insert in Hu2.
    repeat case_decide; try congruence;
      try (injection Hu1 as <-; destruct (Hother k2 u2 Hu2); congruence);
      try (injection Hu2 as <-; destruct (Hother k1 u1 Hu1); congruence).
    eauto.
Qed.

Lemma tracks_write sessions open_files key u h f n :
  tracks sessions open_files ->
  sessions !! key = Some u -> file_handle u = Some h -> open_files !! h = Some f ->
  tracks (alter (add_uploaded (Z.of_nat n)) key sessions)
    (<[h := {| Fs.of_loc := Fs.of_loc f; Fs.of_pos := (Fs.of_pos f + n)%nat |}]>
       open_files).
Proof.
  intros [Hopen Hinj] Hu Hh Hf. split.
  - intros k u' h' Hu' Hh'. rewrite lookup_alter in Hu'. case_decide.
    + subst k. rewrite Hu in Hu'. injection Hu' as <-. simpl in Hh'.
      assert (h' = h) by congruence. subst h'.
      destruct (Hopen key u h Hu Hh) as (f' & Hf' & Hloc & Hpos).
      assert (f' = f) by congruence. subst f'.
      rewrite lookup_insert_eq. eexists. split; [reflexivity|]. simpl.
      split; [exact Hloc | lia].
    + assert (h' <> h).
      { intros ->. apply H. symmetry. eapply Hinj; eauto. }
      rewrite lookup_insert_ne by congruence. eauto.
  - intros k1 k2 u1 u2 h' Hu1 Hu2 Hh1 Hh2.
    rewrite lookup_alter in Hu1. rewrite lookup_alter in Hu2.
    assert (Hback : forall k u', (if decide (key = k)
                      then add_uploaded (Z.of_nat n) <$> sessions !! key
                      else sessions !! k) = Some u' ->
              exists u0, sessions !! k = Some u0 /\ file_handle u0 = file_handle u').
    { intros k u' Hk. case_decide.
      - subst k. destruct (sessions !! key) as [u0|]; [|discriminate].
        injection Hk as <-. eauto.
      - eauto. }
    destruct (Hback _ _ Hu1) as (v1 & Hv1 & He1).
    destruct (Hback _ _ Hu2) as (v2 & Hv2 & He2).
    apply (Hinj k1 k2 v1 v2 h'); congruence.
Qed.

Lemma tracks_close sessions open_files key u :
  tracks sessions open_files -> sessions !! key = Some u ->
  tracks (delete key sessions)
    (match file_handle u with
     | Some h => delete h open_files
     | None => open_files
     end).
Proof.
  intros [Hopen Hinj] Hu. split.
  - intros k u' h' Hu' Hh'. rewrite lookup_delete in Hu'. case_decide; [discriminate|].
    destruct (file_handle u) as [h|] eqn:Hh; [|eauto].
    assert (h' <> h).
    { intros ->. apply H. eapply Hinj; eauto. }
    rewrite lookup_delete_ne by congruence. eauto.
  - intros k1 k2 u1 u2 h' Hu1 Hu2 Hh1 Hh2.
    rewrite lookup_delete in Hu1. rewrite lookup_delete in Hu2.
    repeat case_decide; try discriminate. eauto.
Qed.

Lemma tracked_send websocket r : keeps tracked (send websocket r).
Proof. intros w H. exact H. Qed.

Lemma tracked_set_tasks f : keeps tracked (modify (set_tasks f)).
Proof. intros w H. exact H. Qed.

Lemma tracked_set_jobs f : keeps tracked (modify (set_jobs f)).
Proof. intros w H. exact H. Qed.

Ltac tracked_step :=
  match goal with
  | |- keeps _ (bind _ _) => apply keeps_bind; [|intros]
  | |- keeps _ (try_except _ _ _) => apply keeps_try_except; [|intros]
  | |- keeps _ (ret _) => apply keeps_ret
  | |- keeps _ (raise _) => apply keeps_raise
  | |- keeps _ (lift _) => apply keeps_lift
  | |- keeps _ Eff.get => apply keeps_get
  | |- keeps _ (send _ _) => apply tracked_send
  | |- keeps _ (modify (set_tasks _)) => apply tracked_set_tasks
  | |- keeps _ (modify (set_jobs _)) => apply tracked_set_jobs
  | |- keeps _ (Core.check_ffmpeg _) => unfold Core.check_ffmpeg
  | |- keeps _ (if ?c then _ else _) => destruct c
  | |- keeps _ (match ?x with _ => _ end) => destruct x
  end.

Lemma tracked_convert websocket data :
  keeps tracked (handle_convert_request websocket data).
Proof. unfold handle_convert_request. repeat tracked_step. Qed.

Lemma tracked_check_ffmpeg E websocket :
  keeps tracked (handle_check_ffmpeg E websocket).
Proof. unfold handle_check_ffmpeg. repeat tracked_step. Qed.

Lemma tracked_cancel websocket data :
  keeps tracked (handle_cancel_request websocket data).
Proof. unfold handle_cancel_request. repeat tracked_step. Qed.

Lemma tracked_upload websocket data :
  keeps tracked (handle_upload websocket data).
Proof.
  intros w Hw.
  destruct (truthy (get_or_null "file_name" data)) eqn:Htruthy.
  2:{ unfold handle_upload. rewrite Htruthy. exact Hw. }
  destruct (get_or_null "file_name" data) as [|b|n|name|l|o] eqn:Hname;
    try (unfold handle_upload; rewrite Hname, Htruthy; exact Hw).
  assert (Hne : name <> "") by (intros ->; discriminate).
  rewrite (handle_upload_named websocket data w name Hname Hne).
  pose proof (makedirs_handles (Path.dirname (Path.join upload_dir name)) (files w))
    as Hmk.
  destruct (Fs.makedirs _ (files w)) as [[[]|e1] fs1] eqn:Hm; cbn [snd] in Hmk.
  - destruct (Fs.open_wb _ fs1) as [[h|e2] fs2] eqn:Hop.
    + apply open_wb_returns in Hop as (_ & Hnone & ->). unfold tracked.
      cbn [snd uploads files Fs.handles]. rewrite alter_insert_eq.
      rewrite Hmk in Hnone. rewrite Hmk.
      apply (tracks_open (uploads w) (Fs.handles (files w)) _
               (with_handle (Some h)
                  (new_session name (default (JInt 0) (get "file_size" data)))) h);
        auto.
    + apply open_wb_raises in Hop as [_ ->]. unfold tracked.
      cbn [snd uploads files Fs.handles]. rewrite Hmk.
      now apply tracks_insert_closed.
  - apply makedirs_raises in Hm as [_ ->]. unfold tracked.
    cbn [snd uploads files Fs.handles]. now apply tracks_insert_closed.
Qed.

Lemma tracked_upload_chunk b64decode websocket data :
  keeps tracked (handle_upload_chunk b64decode websocket data).
Proof.
  intros w Hw.
  destruct (handle_upload_chunk_cases b64decode websocket data w)
    as (_ & _ & [[Hu Hf] | (key & u & h & bytes & Hid & Hu & Hh & Hwr & Hups)]).
  - unfold tracked. rewrite Hu, Hf. exact Hw.
  - apply write_returns in Hwr as (f & Hf & Hhs & _).
    unfold tracked. rewrite Hups, Hhs. now apply tracks_write with (u := u).
Qed.

Lemma tracked_upload_complete websocket data :
  keeps tracked (handle_upload_complete websocket data).
Proof.
  intros w Hw.
  destruct (get_or_null "upload_id" data) as [|b|n|key|l|o] eqn:Hid;
    try (unfold handle_upload_complete; rewrite Hid;
         destruct (truthy _); exact Hw).
  destruct (String.eqb key "") eqn:Hkey.
  { unfold handle_upload_complete. rewrite Hid. unfold truthy. rewrite Hkey.
    exact Hw. }
  apply String.eqb_neq in Hkey.
  destruct (uploads w !! key) as [u|] eqn:Hu.
  - rewrite (handle_upload_complete_found websocket data w key u Hid Hkey Hu).
    pose proof (tracks_close _ _ key u Hw Hu) as H.
    unfold tracked, closed. cbn [snd uploads files].
    destruct (file_handle u); exact H.
  - unfold handle_upload_complete. rewrite Hid. unfold truthy.
    rewrite (proj2 (String.eqb_neq key "") Hkey). cbn [negb].
    unfold bind, Eff.get, lift, member. rewrite Hu. exact Hw.
Qed.

Lemma tracked_process_message b64decode E websocket message :
  keeps tracked (process_message b64decode E websocket message).
Proof.
  destruct message as [parsed|]; [|apply tracked_send].
  unfold process_message.
  apply keeps_try_except; [|intros; apply tracked_send].
  apply keeps_bind_lift. intros members _.
  repeat match goal with
  | |- keeps _ (if ?c then _ else _) => destruct c
  end;
  auto using tracked_convert, tracked_check_ffmpeg, tracked_cancel, tracked_upload,
    tracked_upload_chunk, tracked_upload_complete, tracked_send.
Qed.

Lemma tracked_run b64decode E labels : forall w w',
  run b64decode E labels w = Some w' -> tracked w -> tracked w'.
Proof.
  induction labels as [|l rest IH]; simpl; intros w w' Hrun Hw.
  - now injection Hrun as <-.
  - destruct (step b64decode E l w) as [w1|] eqn:Hstep; simpl in Hrun; [|discriminate].
    apply (IH w1 w' Hrun). clear IH Hrun.
    destruct l as [websocket message|task|task]; simpl in Hstep.
    + injection Hstep as <-. now apply tracked_process_message.
    + unfold start_thread in Hstep.
      destruct (jobs w !! task) as [j|]; simpl in Hstep; [|discriminate].
      destruct (job_thread j); try discriminate.
      destruct (job_cancelled j); [discriminate|].
      injection Hstep as <-. exact Hw.
    + unfold emit in Hstep.
      destruct (jobs w !! task) as [j|]; simpl in Hstep; [|discriminate].
      destruct (job_thread j) as [|[|update rest']|]; try discriminate;
        injection Hstep as <-; exact Hw.
Qed.

Lemma tracked_init fs : tracked (init fs).
Proof.
  split.
  - intros key u h Hu. simpl in Hu. rewrite lookup_empty in Hu. discriminate.
  - intros k1 k2 u1 u2 h Hu. simpl in Hu. rewrite lookup_empty in Hu. discriminate.
Qed.



(** In every state the server reaches, a session that holds a file
    object holds an open one, which stands on the path of the session
    at the position given by [uploaded_size], and which no other
    session holds. *)
Theorem sessions_track_their_files :
  forall b64decode E fs labels w key u h,
    run b64decode E labels (init fs) = Some w ->
    uploads w !! key = Some u -> file_handle u = Some h ->
    (exists f, Fs.handles (files w) !! h = Some f
       /\ Fs.of_loc f = Path.resolve (file_path u)
       /\ Z.of_nat (Fs.of_pos f) = uploaded_size u)
    /\ (forall key' u', uploads w !! key' = Some u' -> file_handle u' = Some h ->
          key' = key).
Proof.
  intros b64decode E fs labels w key u h Hrun Hu Hh.
  destruct (tracked_run b64decode E labels _ _ Hrun (tracked_init fs)) as [Hopen Hinj].
  split; [eauto|]. intros key' u' Hu' Hh'. eapply Hinj; eauto.
Qed.

(** The theorem on the second session of [two_sessions], after two
    chunks and the end of the first session. *)
Lemma sessions_track_their_files_witness :
  (exists f,
     Fs.handles (files (Examples.server_after (Examples.host [] 0)
                          Examples.empty_disk two_sessions)) !! 1%nat = Some f
     /\ Fs.of_loc f = Path.resolve "uploads/b.bin"
     /\ Z.of_nat (Fs.of_pos f) = 10)
  /\ (forall key' u',
        uploads (Examples.server_after (Examples.host [] 0)
                   Examples.empty_disk two_sessions) !! key' = Some u' ->
        file_handle u' = Some 1%nat -> key' = "8_1").
Proof.
  apply (sessions_track_their_files Base64.b64decode (Examples.host [] 0)
           Examples.empty_disk two_sessions _ "8_1"
           {| file_name := "b.bin"; file_path := "uploads/b.bin";
              file_size := JInt 0; uploaded_size := 10;
              file_handle := Some 1%nat |} 1%nat).
  - vm_compute. reflexivity.
  - vm_compute. reflexivity.
  - reflexivity.
Defined.

(** In every state the server reaches, a chunk message changes no
    session but the one it names and no file but the file of that
    session; tasks are left alone. *)
Theorem chunk_writes_its_own_file_only :
  forall b64decode E fs labels w websocket data,
    run b64decode E labels (init fs) = Some w ->
    let w' := snd (handle_upload_chunk b64decode websocket data w) in
    (forall key, get_or_null "upload_id" data <> JStr key ->
       uploads w' !! key = uploads w !! key)
    /\ (forall loc, Fs.nodes (files w') !! loc <> Fs.nodes (files w) !! loc ->
          exists key u,
            get_or_null "upload_id" data = JStr key
            /\ uploads w !! key = Some u
            /\ loc = Path.resolve (file_path u))
    /\ tasks w' = tasks w /\ jobs w' = jobs w.
Proof.
  intros b64decode E fs labels w websocket data Hrun. cbv zeta.
  pose proof (tracked_run b64decode E labels _ _ Hrun (tracked_init fs)) as [Hopen _].
  destruct (handle_upload_chunk_cases b64decode websocket data w)
    as (Ht & Hj & [[Hu Hf] | (key & u & h & bytes & Hid & Hu & Hh & Hwr & Hups)]).
  - rewrite Hu, Hf. repeat split; auto. intros loc Hloc. now destruct Hloc.
  - apply write_returns in Hwr as (f & Hf & Hhs & Hframe).
    destruct (Hopen key u h Hu Hh) as (f' & Hf' & Hloc & _).
    assert (f' = f) by congruence. subst f'.
    split; [|split; [|auto]].
    + intros key' Hkey'. rewrite Hups. apply lookup_alter_ne. congruence.
    + intros loc Hchanged. exists key, u. split; [exact Hid|]. split; [exact Hu|].
      rewrite <- Hloc. destruct (decide (loc = Fs.of_loc f)) as [->|Hne]; [reflexivity|].
      destruct Hchanged. now apply Hframe.
Qed.

(** The theorem on a chunk for the second session of [two_sessions]. *)
Lemma chunk_writes_its_own_file_only_witness :
  let w := Examples.server_after (Examples.host [] 0) Examples.empty_disk
             two_sessions in
  let data := [("upload_id", JStr "8_1"); ("chunk", JStr "aGVsbG8=")] in
  let w' := snd (handle_upload_chunk Base64.b64decode 8%N data w) in
  (forall key, get_or_null "upload_id" data <> JStr key ->
     uploads w' !! key = uploads w !! key)
  /\ (forall loc, Fs.nodes (files w') !! loc <> Fs.nodes (files w) !! loc ->
        exists key u,
          get_or_null "upload_id" data = JStr key
          /\ uploads w !! key = Some u
          /\ loc = Path.resolve (file_path u))
  /\ tasks w' = tasks w /\ jobs w' = jobs w.
Proof.
  apply (chunk_writes_its_own_file_only Base64.b64decode (Examples.host [] 0)
           Examples.empty_disk two_sessions _ 8%N
           [("upload_id", JStr "8_1"); ("chunk", JStr "aGVsbG8=")]).
  vm_compute. reflexivity.
Defined.

End SessionsFacts.

Module FeedFacts.
Import Py Eff Json Server Feed EffFacts PyFacts ServerFacts.





























End FeedFacts.

Module CliFacts.
Import Py Eff Core Events Cli EffFacts PyFacts CoreFacts EventsFacts.

Lemma substring_whole_prefix n s :
  (n <= String.length s)%nat ->
  String.substring 0 n s +:+ String.substring n (String.length s - n) s = s.
Proof.
  revert n. induction s as [|c s IH]; intros [|n] Hn; simpl in *; try lia.
  - reflexivity.
  - change (String c (String.substring 0 (String.length s) s) = String c s).
    f_equal. clear IH Hn. induction s as [|c' s IH]; simpl; [reflexivity|].
    now f_equal.
  - change (String c (String.substring 0 n s
                      +:+ String.substring n (String.length s - n) s)
            = String c s).
    f_equal. apply IH. lia.
Qed.

Lemma rfind_from_bound c s i :
  rfind_from c s i = -1
  \/ (i <= rfind_from c s i < i + Z.of_nat (String.length s)).
Proof.
  revert i. induction s as [|a s IH]; intros i; simpl; [now left|].
  destruct (IH (i + 1)) as [H|H].
  - rewrite H. simpl. destruct (Ascii.eqb a c); [right; lia | now left].
  - destruct (0 <=? rfind_from c s (i + 1)) eqn:Hle.
    + right. lia.
    + destruct (Ascii.eqb a c); [right; lia | now left].
Qed.

(** [splitext] cuts its argument in two. *)
Lemma splitext_parts p : fst (splitext p) +:+ snd (splitext p) = p.
Proof.
  unfold splitext.
  assert (Hempty : p +:+ "" = p).
  { induction p as [|c p IH]; [reflexivity|].
    change (String c (p +:+ "") = String c p). now f_equal. }
  destruct (rfind "/" p <? rfind "." p) eqn:Hlt; [|exact Hempty].
  destruct (skip_dots _); [|exact Hempty].
  cbn [fst snd]. apply substring_whole_prefix.
  unfold rfind in *. destruct (rfind_from_bound "." p 0) as [H|H]; lia.
Qed.

Lemma progress_callback_returns update out e :
  fst (progress_callback update out) = Raise e -> is_Exception e = true.
Proof. discriminate. Qed.

Lemma deliver_progress_callback events : forall out,
  deliver progress_callback out events = (out ++ flat_map written events)%list.
Proof.
  induction events as [|update rest IH]; intros out; simpl.
  - now rewrite app_nil_r.
  - rewrite IH. now rewrite <- app_assoc.
Qed.

Lemma check_ffmpeg_true {St} E (st : St) :
  ffmpeg_found E = true -> Core.check_ffmpeg E st = (Ret true, st).
Proof.
  unfold Core.check_ffmpeg, try_except, bind, lift, ret, ffmpeg_found.
  destruct (ffmpeg_version E) as [out|e]; [|discriminate].
  now intros ->.
Qed.

(** *** The core prints nothing of its own *)

Section Quiet.
Context {S : Type}.
Variable cb : callback S.
Hypothesis cb_returns : forall update s, fst (cb update s) = Ret tt.
Variable p : list string.

#[local] Abbreviation silent := (fun st : cstate S => printed st = p).

Lemma silent_call_callback update : keeps silent (call_callback (Some cb) update).
Proof.
  intros st Hst. unfold call_callback, try_except, run_callback.
  pose proof (cb_returns update (cb_state st)) as Hret.
  destruct (cb update (cb_state st)) as [r s']. simpl in Hret. subst r.
  exact Hst.
Qed.

Ltac silent_step :=
  match goal with
  | |- keeps _ (bind _ _) => apply keeps_bind; [|intros]
  | |- keeps _ (try_except _ _ _) => apply keeps_try_except; [|intros]
  | |- keeps _ (ret _) => apply keeps_ret
  | |- keeps _ (raise _) => apply keeps_raise
  | |- keeps _ (lift _) => apply keeps_lift
  | |- keeps _ (call_callback _ _) => apply silent_call_callback
  | |- keeps _ (Core.check_ffmpeg _) => unfold Core.check_ffmpeg
  | |- keeps _ (get_video_duration _ _) => unfold get_video_duration
  | |- keeps _ (if ?c then _ else _) => destruct c
  | |- keeps _ (match ?x with _ => _ end) => destruct x
  end.

Lemma silent_handle_line duration line :
  keeps silent (handle_line (call_callback (Some cb)) duration line).
Proof. unfold handle_line. repeat silent_step. Qed.

Lemma silent_read_progress duration lines :
  keeps silent (read_progress (call_callback (Some cb)) duration lines).
Proof.
  induction lines as [|line rest IH]; simpl.
  - apply keeps_ret.
  - apply keeps_bind; [apply silent_handle_line | intros; exact IH].
Qed.

Lemma silent_convert_video E input_file output_file kwargs :
  keeps silent (convert_video E input_file output_file (Some cb) kwargs).
Proof.
  unfold convert_video. cbv zeta.
  repeat first [apply silent_read_progress | silent_step].
Qed.

End Quiet.

(** What the conversion started by [main] gives back and leaves on
    standard output. *)
Lemma convert_video_on_terminal E input output kwargs st :
  let run := convert_video E input output (Some progress_callback) kwargs st in
  fst run = recorded E input output kwargs
  /\ cb_state (snd run)
     = (cb_state st ++ flat_map written (conversion_events E input output kwargs))%list
  /\ printed (snd run) = printed st.
Proof.
  cbv zeta.
  destruct (sim_convert_video progress_callback progress_callback_returns
              E input output kwargs st {| cb_state := []; printed := [] |})
    as (events & Hfst & Hlog & Hout).
  split; [exact Hfst|]. split.
  - rewrite Hout, deliver_progress_callback. unfold conversion_events.
    now rewrite Hlog.
  - apply (silent_convert_video progress_callback (fun _ _ => eq_refl) (printed st)).
    reflexivity.
Qed.

(** [main] returns 0 or 1, and 0 exactly when what was asked for
    worked: ffmpeg was found, when that was the question, and the
    conversion returned [True] otherwise. *)
Theorem main_exit_code :
  forall E repr a st code,
    fst (main E repr a st) = Ret code ->
    (code = 0 \/ code = 1)
    /\ (code = 0 <->
        if check_ffmpeg a then ffmpeg_found E = true
        else conversion_succeeds E a).
Proof.
  intros E repr a st code. unfold main.
  assert (Hno : forall P : Prop, (P -> False) -> (1 = 0 <-> P)).
  { intros P HP. split; [discriminate | intros H; destruct (HP H)]. }
  assert (Hyes : forall P : Prop, P -> (0 = 0 <-> P)).
  { intros P HP. split; auto. }
  destruct (check_ffmpeg a).
  - unfold bind at 1.
    destruct (Core.check_ffmpeg E st) as [[available|e] st0] eqn:Hck; [|discriminate].
    apply check_ffmpeg_found in Hck. rewrite <- Hck.
    destruct available; unfold bind, echo, modify, ret; cbn [fst snd];
      intros [= <-].
    + split; [now left|]. now apply Hyes.
    + split; [now right|]. apply Hno. discriminate.
  - 
    destruct (input_file a) as [input|] eqn:Hin; simpl.
    2:{ intros [= <-]. split; [now right|]. apply Hno. intros (i & Hi & _). congruence. }
    destruct (String.eqb_spec input "") as [->|Hne]; simpl.
    { intros [= <-]. split; [now right|]. apply Hno.
      intros (i & Hi & Hi' & _). congruence. }
    destruct (path_exists E input) eqn:Hex; simpl.
    2:{ intros [= <-]. split; [now right|]. apply Hno.
        intros (i & Hi & _ & Hex' & _). congruence. }
    unfold bind at 1.
    destruct (Core.check_ffmpeg E st) as [[available|e] st0] eqn:Hck; [|discriminate].
    pose proof (check_ffmpeg_state E st) as Hst. rewrite Hck in Hst. simpl in Hst.
    subst st0. apply check_ffmpeg_found in Hck.
    destruct available; simpl.
    2:{ intros [= <-]. split; [now right|]. apply Hno.
        intros (i & _ & _ & _ & Hfound & _). congruence. }
    unfold bind at 1. unfold echo at 1, modify at 1. cbv beta iota.
    unfold bind at 1. unfold echo at 1, modify at 1. cbv beta iota.
    unfold bind.
    match goal with
    | |- context [convert_video E input ?o ?cb ?kw ?s] =>
        destruct (convert_video_on_terminal E input o kw s) as (Hfst & _ & _);
        destruct (convert_video E input o cb kw s) as [[success|e] st1]
    end; simpl in Hfst; [|discriminate].
    intros [= <-]. destruct success.
    + split; [now left|]. apply Hyes. exists input. auto 10.
    + split; [now right|]. apply Hno. intros (i & Hi & _ & _ & _ & Hrec).
      rewrite Hin in Hi. injection Hi as <-. congruence.
Qed.

(** The theorem on [video2mp4 clip.mov], with an ffmpeg that reports
    one time marker and exits with status 0. *)
Lemma main_exit_code_witness :
  (0 = 0 \/ 0 = 1)
  /\ (0 = 0 <->
      conversion_succeeds (Examples.host ["out_time_ms=5000000"] 0)
        (only_input "clip.mov")).
Proof.
  apply (main_exit_code (Examples.host ["out_time_ms=5000000"] 0) quoted
           (only_input "clip.mov") terminal 0).
  vm_compute. reflexivity.
Defined.

(** When [main] gets as far as the conversion, standard output receives
    the two lines that announce it and then, for every event of
    [convert_video] in order, what [progress_callback] writes for it;
    [convert_video] itself reports no failure of the callback. *)
Theorem main_writes_the_events :
  forall E repr a st input,
    check_ffmpeg a = false ->
    input_file a = Some input -> input <> "" ->
    path_exists E input = true -> ffmpeg_found E = true ->
    cb_state (snd (main E repr a st))
    = (cb_state st
       ++ [("Converting " +:+ input +:+ " to " +:+ output_of a input +:+ "...")
             +:+ newline;
           ("Options: " +:+ options_text repr a) +:+ newline]
       ++ flat_map written
            (conversion_events E input (output_of a input) (options a)))%list
    /\ printed (snd (main E repr a st)) = printed st.
Proof.
  intros E repr a st input Hmode Hin Hne Hex Hfound.
  destruct (main E repr a st) as [r st'] eqn:Hmain. cbn [snd].
  unfold main in Hmain. rewrite Hmode, Hin in Hmain.
  cbn [missing default from_option id] in Hmain.
  rewrite (proj2 (String.eqb_neq input "") Hne), Hex in Hmain.
  cbn [negb] in Hmain. unfold bind at 1 in Hmain.
  rewrite (check_ffmpeg_true E st Hfound) in Hmain. cbn [negb] in Hmain.
  unfold bind at 1 in Hmain. unfold echo at 1, modify at 1 in Hmain.
  unfold bind at 1 in Hmain. unfold echo at 1, modify at 1 in Hmain.
  unfold bind in Hmain.
  match type of Hmain with
  | context [convert_video E input ?o ?cb ?kw ?s] =>
      destruct (convert_video_on_terminal E input o kw s) as (_ & Hout & Hpr);
      destruct (convert_video E input o cb kw s) as [[success|e] st1]
  end; injection Hmain as _ <-; cbn [snd cb_state printed] in Hout, Hpr;
    (split; [rewrite Hout, <- !app_assoc; reflexivity | exact Hpr]).
Qed.

(** The theorem on [video2mp4 clip.mov]. *)
Lemma main_writes_the_events_witness :
  let E := Examples.host ["out_time_ms=5000000"] 0 in
  let a := only_input "clip.mov" in
  cb_state (snd (main E quoted a terminal))
  = (cb_state terminal
     ++ [("Converting " +:+ "clip.mov" +:+ " to " +:+ output_of a "clip.mov"
            +:+ "...") +:+ newline;
         ("Options: " +:+ options_text quoted a) +:+ newline]
     ++ flat_map written
          (conversion_events E "clip.mov" (output_of a "clip.mov") (options a)))%list
  /\ printed (snd (main E quoted a terminal)) = printed terminal.
Proof.
  apply (main_writes_the_events (Examples.host ["out_time_ms=5000000"] 0) quoted
           (only_input "clip.mov") terminal "clip.mov").
  - reflexivity.
  - reflexivity.
  - discriminate.
  - reflexivity.
  - reflexivity.
Defined.

(** Without an output path, an input whose extension is [.mp4] already
    is converted onto itself: the output path [main] hands to
    [convert_video] is the input path. *)
Theorem mp4_input_is_its_own_default_output :
  forall a input,
    missing (output_file a) = true ->
    snd (splitext input) = ".mp4" ->
    output_of a input = input.
Proof.
  intros a input Hmissing Hext.
  assert (Hdefault : output_of a input = fst (splitext input) +:+ ".mp4").
  { unfold output_of. destruct (output_file a) as [output|]; [|reflexivity].
    simpl in Hmissing. now rewrite Hmissing. }
  rewrite Hdefault, <- Hext. apply splitext_parts.
Qed.

(** The theorem on [video2mp4 shots/clip.mp4]. *)
Lemma mp4_input_is_its_own_default_output_witness :
  output_of (only_input "shots/clip.mp4") "shots/clip.mp4" = "shots/clip.mp4".
Proof.
  apply (mp4_input_is_its_own_default_output (only_input "shots/clip.mp4")
           "shots/clip.mp4").
  - reflexivity.
  - vm_compute. reflexivity.
Defined.

End CliFacts.
